(** * Phase meta-phenotype extraction of scanomatic, shallow embedding

    Models [scanomatic/data_processing/phases/features.py] and the
    [PhenotyperState.wipe_extracted_phenotypes] method of
    [scanomatic/data_processing/pheno/state.py].

    Python values that flow through the per-cell functions are modelled by a
    small universe [pyobj]; exceptions by [exn]; the numpy float64 values by
    [fl] (NaN, +inf, -inf, or a finite value kept as an exact rational, so
    rounding and signed zeros are not modelled). *)

From Stdlib Require Import String List ZArith QArith Qabs Bool Lia Permutation.
From Stdlib Require Import Lqa Qminmax.
Import ListNotations.
Open Scope nat_scope.

(* ------------------------------------------------------------------ *)
(** ** Enumerations *)

(** Modelled from the spec: the [CurvePhases] enum of the segmentation
    module (not part of the sources); members as named by the spec and as
    used in [features.py]. *)
Inductive CurvePhases :=
| Undetermined | Flat | GrowthAcceleration | Impulse | GrowthRetardation
| Collapse | UndeterminedNonLinear.

Definition phase_eqb (a b : CurvePhases) : bool :=
  match a, b with
  | Undetermined, Undetermined | Flat, Flat
  | GrowthAcceleration, GrowthAcceleration | Impulse, Impulse
  | GrowthRetardation, GrowthRetardation | Collapse, Collapse
  | UndeterminedNonLinear, UndeterminedNonLinear => true
  | _, _ => false
  end.

(** Modelled from the spec: the keys of a segment's phenotype dict
    ([CurvePhasePhenotypes] of the analysis module, not part of the
    sources), restricted to those [features.py] reads. *)
Inductive CurvePhasePhenotypes :=
| PopulationDoublings | PopulationDoublingTime | LinearModelSlope
| LinearModelIntercept | AsymptoteAngle | AsymptoteIntersection
| Start | Duration.

Definition key_eqb (a b : CurvePhasePhenotypes) : bool :=
  match a, b with
  | PopulationDoublings, PopulationDoublings
  | PopulationDoublingTime, PopulationDoublingTime
  | LinearModelSlope, LinearModelSlope
  | LinearModelIntercept, LinearModelIntercept
  | AsymptoteAngle, AsymptoteAngle
  | AsymptoteIntersection, AsymptoteIntersection
  | Start, Start | Duration, Duration => true
  | _, _ => false
  end.

(** Modelled from the spec ("a non-linear detection predicate distinguishes
    {Acceleration, Retardation, Collapse} from the linear phases"):
    [is_detected_non_linear] of the segmentation module. *)
Definition is_detected_non_linear_phase (p : CurvePhases) : bool :=
  match p with
  | GrowthAcceleration | GrowthRetardation | Collapse => true
  | _ => false
  end.

(** [CurvePhaseMetaPhenotypes] *)
Inductive CurvePhaseMetaPhenotypes :=
| MajorImpulseYieldContribution
| FirstMinorImpulseYieldContribution
| MajorImpulseAveragePopulationDoublingTime
| FirstMinorImpulseAveragePopulationDoublingTime
| MajorImpulseFlankAsymmetry
| InitialAccelerationAsymptoteAngle
| FinalRetardationAsymptoteAngle
| InitialAccelerationAsymptoteIntersect
| FinalRetardationAsymptoteIntersect
| InitialLag
| InitialLagAlternativeModel
| TimeBeforeMajorGrowth
| Modalities
| ModalitiesAlternativeModel
| Collapses.

(* ------------------------------------------------------------------ *)
(** ** float64 values *)

Inductive fl := NaN | PInf | NInf | Fin (q : Q).

Definition fl_neg (a : fl) : fl :=
  match a with
  | NaN => NaN | PInf => NInf | NInf => PInf | Fin q => Fin (- q)
  end.

Definition fl_add (a b : fl) : fl :=
  match a, b with
  | NaN, _ | _, NaN => NaN
  | PInf, NInf | NInf, PInf => NaN
  | PInf, _ | _, PInf => PInf
  | NInf, _ | _, NInf => NInf
  | Fin x, Fin y => Fin (x + y)
  end.

Definition fl_sub (a b : fl) : fl := fl_add a (fl_neg b).

Definition fl_mul (a b : fl) : fl :=
  match a, b with
  | NaN, _ | _, NaN => NaN
  | Fin x, Fin y => Fin (x * y)
  | Fin x, i | i, Fin x =>
      if Qeq_bool x 0 then NaN
      else if Qlt_le_dec x 0 then fl_neg i else i
  | PInf, PInf | NInf, NInf => PInf
  | _, _ => NInf
  end.

(** numpy division: never raises, division by zero gives +-inf or NaN. *)
Definition fl_div (a b : fl) : fl :=
  match a, b with
  | NaN, _ | _, NaN => NaN
  | (PInf | NInf), (PInf | NInf) => NaN
  | Fin _, (PInf | NInf) => Fin 0
  | PInf, Fin y => if Qlt_le_dec y 0 then NInf else PInf
  | NInf, Fin y => if Qlt_le_dec y 0 then PInf else NInf
  | Fin x, Fin y =>
      if Qeq_bool y 0 then
        (if Qeq_bool x 0 then NaN
         else if Qlt_le_dec x 0 then NInf else PInf)
      else Fin (x / y)
  end.

Definition fl_abs (a : fl) : fl :=
  match a with
  | NInf => PInf
  | Fin q => Fin (Qabs q)
  | x => x
  end.

(** IEEE [<]: false as soon as one side is NaN. *)
Definition fl_lt (a b : fl) : bool :=
  match a, b with
  | NaN, _ | _, NaN => false
  | NInf, NInf => false
  | NInf, _ => true
  | _, NInf => false
  | PInf, _ => false
  | Fin _, PInf => true
  | Fin x, Fin y => negb (Qle_bool y x)
  end.

Definition fl_eqb (a b : fl) : bool :=
  match a, b with
  | PInf, PInf | NInf, NInf => true
  | Fin x, Fin y => Qeq_bool x y
  | _, _ => false
  end.

Definition fl_isnan (a : fl) : bool :=
  match a with NaN => true | _ => false end.

(** The order numpy's sort uses for float arrays: NaN sorts last. *)
Definition fl_sort_le (a b : fl) : bool :=
  match a, b with
  | _, NaN => true
  | NaN, _ => false
  | x, y => negb (fl_lt y x)
  end.

(** Values of the meta-phenotype arrays that are "NaN or >= 0". *)
Definition nan_or_nonneg (a : fl) : Prop :=
  a = NaN \/ a = PInf \/ exists q, a = Fin q /\ (0 <= q)%Q.

(* ------------------------------------------------------------------ *)
(** ** Python values and exceptions *)

(** Python objects met by the per-cell functions: tuples stand for the
    tuples and object arrays that hold PhaseVectors, dicts for the segment
    phenotype dicts (unique keys). *)
#[local] Set Warnings "-register-all".
Inductive pyobj :=
| PNone
| PInt (z : Z)
| PFloat (f : fl)
| PPhase (p : CurvePhases)
| PKey (k : CurvePhasePhenotypes)
| PTuple (xs : list pyobj)
| PDict (kvs : list (CurvePhasePhenotypes * pyobj)).

Inductive exn := TypeError | ValueError | KeyError | IndexError.

Inductive res (A : Type) := Ok (a : A) | Exc (e : exn).
Arguments Ok {A} a.
Arguments Exc {A} e.

Definition bind {A B} (m : res A) (k : A -> res B) : res B :=
  match m with Ok a => k a | Exc e => Exc e end.

Notation "'let*' x ':=' m 'in' k" := (bind m (fun x => k))
  (at level 200, x name, m at level 100, right associativity).

(** [try: m except TypeError: h] *)
Definition catch_type_error {A} (m : res A) (h : A) : res A :=
  match m with Exc TypeError => Ok h | r => r end.

Fixpoint mapM {A B} (f : A -> res B) (l : list A) : res (list B) :=
  match l with
  | [] => Ok []
  | x :: xs => let* y := f x in let* ys := mapM f xs in Ok (y :: ys)
  end.

Definition to_option {A} (r : res A) : option A :=
  match r with Ok a => Some a | Exc _ => None end.

(** [==] *)
Fixpoint py_eq (a b : pyobj) {struct a} : bool :=
  match a, b with
  | PNone, PNone => true
  | PInt x, PInt y => Z.eqb x y
  | PInt x, PFloat f => fl_eqb (Fin (inject_Z x)) f
  | PFloat f, PInt y => fl_eqb f (Fin (inject_Z y))
  | PFloat f, PFloat g => fl_eqb f g
  | PPhase p, PPhase q => phase_eqb p q
  | PKey k, PKey l => key_eqb k l
  | PTuple xs, PTuple ys =>
      (fix go (xs ys : list pyobj) : bool :=
         match xs, ys with
         | [], [] => true
         | x :: xs', y :: ys' => py_eq x y && go xs' ys'
         | _, _ => false
         end) xs ys
  | PDict d1, PDict d2 =>
      Nat.eqb (length d1) (length d2) &&
      (fix go (d : list (CurvePhasePhenotypes * pyobj)) : bool :=
         match d with
         | [] => true
         | (k, v) :: d' =>
             existsb (fun kv => key_eqb k (fst kv) && py_eq v (snd kv)) d2
             && go d'
         end) d1
  | _, _ => false
  end.

(** [is] for the singletons compared by identity in the code ([None] and
    the enum members). *)
Definition is_phase (a : pyobj) (p : CurvePhases) : bool :=
  match a with PPhase q => phase_eqb q p | _ => false end.

Definition is_none (a : pyobj) : bool :=
  match a with PNone => true | _ => false end.

(** [<] *)
Fixpoint py_lt (a b : pyobj) {struct a} : res bool :=
  match a, b with
  | PInt x, PInt y => Ok (Z.ltb x y)
  | PInt x, PFloat f => Ok (fl_lt (Fin (inject_Z x)) f)
  | PFloat f, PInt y => Ok (fl_lt f (Fin (inject_Z y)))
  | PFloat f, PFloat g => Ok (fl_lt f g)
  | PTuple xs, PTuple ys =>
      (fix go (xs ys : list pyobj) : res bool :=
         match xs, ys with
         | [], [] => Ok false
         | [], _ :: _ => Ok true
         | _ :: _, [] => Ok false
         | x :: xs', y :: ys' =>
             if py_eq x y then go xs' ys' else py_lt x y
         end) xs ys
  | _, _ => Exc TypeError
  end.

(** Truth value ([if x:]). *)
Definition truthy (a : pyobj) : bool :=
  match a with
  | PNone => false
  | PInt z => negb (Z.eqb z 0)
  | PFloat (Fin q) => negb (Qeq_bool q 0)
  | PFloat _ => true
  | PPhase _ | PKey _ => true
  | PTuple xs => match xs with [] => false | _ => true end
  | PDict d => match d with [] => false | _ => true end
  end.

(** [iter(x)] *)
Definition py_iter (a : pyobj) : res (list pyobj) :=
  match a with
  | PTuple xs => Ok xs
  | PDict d => Ok (map (fun kv => PKey (fst kv)) d)
  | _ => Exc TypeError
  end.

(** [len(x)] *)
Definition py_len (a : pyobj) : res nat :=
  match a with
  | PTuple xs => Ok (length xs)
  | PDict d => Ok (length d)
  | _ => Exc TypeError
  end.

(** [t, d = x] *)
Definition unpack2 (a : pyobj) : res (pyobj * pyobj) :=
  let* xs := py_iter a in
  match xs with
  | [t; d] => Ok (t, d)
  | _ => Exc ValueError
  end.

Fixpoint dict_lookup (d : list (CurvePhasePhenotypes * pyobj))
    (k : CurvePhasePhenotypes) : option pyobj :=
  match d with
  | [] => None
  | (k', v) :: d' => if key_eqb k k' then Some v else dict_lookup d' k
  end.

(** Python list index [xs[i]] with negative indices counted from the end. *)
Definition index_list {A} (xs : list A) (i : Z) : option A :=
  let n := Z.of_nat (length xs) in
  let j := if Z.ltb i 0 then (i + n)%Z else i in
  if Z.ltb j 0 then None else nth_error xs (Z.to_nat j).

(** [x[k]] *)
Definition getitem (a k : pyobj) : res pyobj :=
  match a, k with
  | PTuple xs, PInt i =>
      match index_list xs i with Some v => Ok v | None => Exc IndexError end
  | PTuple _, _ => Exc TypeError
  | PDict d, PKey key =>
      match dict_lookup d key with Some v => Ok v | None => Exc KeyError end
  | PDict _, (PTuple _ | PDict _) => Exc TypeError
  | PDict _, _ => Exc KeyError
  | _, _ => Exc TypeError
  end.

(** numpy [astype(float)] of one object-array element. *)
Definition as_float (a : pyobj) : res fl :=
  match a with
  | PFloat f => Ok f
  | PInt z => Ok (Fin (inject_Z z))
  | PNone => Ok NaN
  | _ => Exc TypeError
  end.

(* ------------------------------------------------------------------ *)
(** ** numpy helpers *)

(** Element of the float array numpy builds from a tuple of numbers. *)
Definition to_sort_key (a : pyobj) : res fl :=
  match a with
  | PFloat f => Ok f
  | PInt z => Ok (Fin (inject_Z z))
  | _ => Exc TypeError
  end.

(** One step of a stable insertion sort on (key, original index) pairs. *)
Fixpoint ins_sorted (k : fl) (i : nat) (l : list (fl * nat)) : list (fl * nat) :=
  match l with
  | [] => [(k, i)]
  | (k', i') :: l' =>
      if fl_sort_le k' k then (k', i') :: ins_sorted k i l' else (k, i) :: l
  end.

(** [np.argsort]: the original indices in ascending order of their keys,
    ties in original order. *)
Definition argsort (keys : list fl) : list nat :=
  map snd (fold_left (fun acc ki => ins_sorted (fst ki) (snd ki) acc)
             (combine keys (seq 0 (length keys))) []).

(** [np.argmax]: position of the first maximum. *)
Fixpoint argmax_from (best_pos : nat) (best : nat) (pos : nat) (l : list nat)
    : nat :=
  match l with
  | [] => best_pos
  | x :: l' =>
      if Nat.ltb best x then argmax_from pos x (S pos) l'
      else argmax_from best_pos best (S pos) l'
  end.

Definition argmax (l : list nat) : nat :=
  match l with [] => 0 | x :: l' => argmax_from 0 x 1 l' end.

(* ------------------------------------------------------------------ *)
(** ** [_py_get_major_impulse_for_plate] *)

(** [p_data[PD] if (p_data is not None and p_data[PD]) else -np.inf] *)
Definition major_rank_value (p_data : pyobj) : res pyobj :=
  if is_none p_data then Ok (PFloat NInf)
  else
    let* v := getitem p_data (PKey PopulationDoublings) in
    if truthy v then getitem p_data (PKey PopulationDoublings)
    else Ok (PFloat NInf).

(** [tuple((i, v) for i, v in enumerate(sort_order)
            if phases[i][0] == CurvePhases.Impulse)] *)
Fixpoint collect_impulses (phases : pyobj) (i : nat) (sort_order : list nat)
    : res (list (nat * nat)) :=
  match sort_order with
  | [] => Ok []
  | v :: rest =>
      let* e := getitem phases (PInt (Z.of_nat i)) in
      let* t := getitem e (PInt 0) in
      let* tl := collect_impulses phases (S i) rest in
      if py_eq t (PPhase Impulse) then Ok ((i, v) :: tl) else Ok tl
  end.

Definition py_get_major_impulse_for_plate (phases : pyobj) : res pyobj :=
  catch_type_error
    (let* entries := py_iter phases in
     let* vals := mapM (fun e => let* td := unpack2 e in
                                 major_rank_value (snd td)) entries in
     let* keys := mapM to_sort_key vals in
     let sort_order := argsort keys in
     let* impulses := collect_impulses phases 0 sort_order in
     (* [impulses.any()]: some entry of the (i, v) array is non-zero *)
     if existsb (fun iv => negb (Nat.eqb (fst iv) 0) || negb (Nat.eqb (snd iv) 0))
          impulses
     then
       Ok (PInt (Z.of_nat
                   (fst (nth (argmax (map snd impulses)) impulses (0%nat, 0%nat)))))
     else Ok (PInt (-1)))
    (PInt (-1)).

(** One cell of [_np_ma_get_major_impulse_indices]: [data[data < 0] = nan]. *)
Definition major_impulse_index_ma (phases : pyobj) : res pyobj :=
  let* r := py_get_major_impulse_for_plate phases in
  match r with
  | PInt z => if Z.ltb z 0 then Ok (PFloat NaN) else Ok (PInt z)
  | x => Ok x
  end.

(* ------------------------------------------------------------------ *)
(** ** [filter_plate_custom_filter] *)

(** [tuple(d for t, d in phenotype_vector if t == phase)] *)
Fixpoint select_phase_dicts (phase : CurvePhases) (entries : list pyobj)
    : res (list pyobj) :=
  match entries with
  | [] => Ok []
  | e :: rest =>
      let* td := unpack2 e in
      let* tl := select_phase_dicts phase rest in
      if py_eq (fst td) (PPhase phase) then Ok (snd td :: tl) else Ok tl
  end.

(** The inner [f] of [filter_plate_custom_filter], before [astype(float)]. *)
Definition custom_filter_cell (phase : CurvePhases)
    (measure : CurvePhasePhenotypes)
    (phases_requirement : list pyobj -> bool)
    (phase_selector : list pyobj -> res pyobj)
    (phenotype_vector : pyobj) : res pyobj :=
  catch_type_error
    (let* entries := py_iter phenotype_vector in
     let* phases := select_phase_dicts phase entries in
     if phases_requirement phases then
       let* sel := phase_selector phases in
       getitem sel (PKey measure)
     else Ok (PFloat NaN))
    (PFloat NaN).

Definition filter_plate_custom_filter (phase : CurvePhases)
    (measure : CurvePhasePhenotypes)
    (phases_requirement : list pyobj -> bool)
    (phase_selector : list pyobj -> res pyobj)
    (plate : list pyobj) : res (list fl) :=
  let* objs := mapM (custom_filter_cell phase measure phases_requirement
                       phase_selector) plate in
  mapM as_float objs.

(** [phases[0]] and [phases[-1]] *)
Definition select_at (i : Z) (phases : list pyobj) : res pyobj :=
  match index_list phases i with Some p => Ok p | None => Exc IndexError end.

(** [phase[PD] if phase[PD] else -np.inf] *)
Definition rank_value (phase : pyobj) : res pyobj :=
  let* v := getitem phase (PKey PopulationDoublings) in
  if truthy v then getitem phase (PKey PopulationDoublings)
  else Ok (PFloat NInf).

(** [phases[np.argsort(tuple(rank_value(phase) for phase in phases))[index]]] *)
Definition select_ranked (index : Z) (phases : list pyobj) : res pyobj :=
  let* vals := mapM rank_value phases in
  let* keys := mapM to_sort_key vals in
  match index_list (argsort keys) index with
  | Some j => select_at (Z.of_nat j) phases
  | None => Exc IndexError
  end.

Definition at_least (n : nat) (phases : list pyobj) : bool :=
  Nat.leb n (length phases).

Definition non_empty (phases : list pyobj) : bool := at_least 1 phases.

(** numpy elementwise binary operation on two arrays of one plate. *)
Fixpoint zip_with {A B C} (f : A -> B -> C) (xs : list A) (ys : list B)
    : res (list C) :=
  match xs, ys with
  | [], [] => Ok []
  | x :: xs', y :: ys' => let* tl := zip_with f xs' ys' in Ok (f x y :: tl)
  | _, _ => Exc ValueError
  end.

(** [np.frompyfunc(f, 2, 1)(a, b)] *)
Fixpoint zip_withM {A B C} (f : A -> B -> res C) (xs : list A) (ys : list B)
    : res (list C) :=
  match xs, ys with
  | [], [] => Ok []
  | x :: xs', y :: ys' =>
      let* z := f x y in let* tl := zip_withM f xs' ys' in Ok (z :: tl)
  | _, _ => Exc ValueError
  end.

(* ------------------------------------------------------------------ *)
(** ** [filter_plate_on_phase_id] and [_get_phase_id] *)

(** The inner [f] of [filter_plate_on_phase_id], before [astype(float)]. *)
Definition on_phase_id_cell (measure : CurvePhasePhenotypes)
    (phenotype_vector phase_id : pyobj) : res pyobj :=
  let* neg := py_lt phase_id (PInt 0) in
  if neg then Ok (PFloat NaN)
  else
    match (let* e := getitem phenotype_vector phase_id in
           let* d := getitem e (PInt 1) in
           getitem d (PKey measure)) with
    | Exc KeyError | Exc TypeError => Ok (PFloat NaN)
    | r => r
    end.

Definition filter_plate_on_phase_id (plate phases_id : list pyobj)
    (measure : CurvePhasePhenotypes) : res (list fl) :=
  let* objs := zip_withM (on_phase_id_cell measure) plate phases_id in
  mapM as_float objs.

(** [tuple(zip(...))[0]] over the entries of [v] in [_get_phase_id]: the first component of every entry, truncated to
    the shortest entry as [zip] does. *)
Definition zip_first (v : pyobj) : res (list pyobj) :=
  let* entries := py_iter v in
  let* cols := mapM py_iter entries in
  match entries with
  | [] => Exc IndexError
  | _ =>
      if existsb (fun c => match c with [] => true | _ => false end) cols
      then Exc IndexError
      else Ok (map (fun c => hd PNone c) cols)
  end.

(** The loop of [_get_phase_id]: [i] counts the matched [phases]. *)
Fixpoint scan_phase_id (phases : list CurvePhases) (i id_phase : nat)
    (v : list pyobj) : Z :=
  match v with
  | [] => (-1)%Z
  | phase :: rest =>
      if Nat.ltb i (length phases) then
        if is_phase phase (nth i phases Undetermined) then
          if Nat.eqb (S i) (length phases) then Z.of_nat id_phase
          else scan_phase_id phases (S i) (S id_phase) rest
        else scan_phase_id phases i (S id_phase) rest
      else scan_phase_id phases i (S id_phase) rest
  end.

(** The inner [f] of [_get_phase_id]. *)
Definition get_phase_id_cell (phases : list CurvePhases) (v : pyobj) : res Z :=
  catch_type_error
    (let* firsts := zip_first v in Ok (scan_phase_id phases 0 0 firsts))
    (-1)%Z.

Definition get_phase_id (plate : list pyobj) (phases : list CurvePhases)
    : res (list pyobj) :=
  let* ids := mapM (get_phase_id_cell phases) plate in
  Ok (map PInt ids).

(* ------------------------------------------------------------------ *)
(** ** Counters *)

(** [sum(1 for phase in phase_vector if phase[0] == p)], [-1] on
    [TypeError]: [_py_impulse_counter] and [_py_collapse_counter]. *)
Definition py_phase_type_counter (p : CurvePhases) (phase_vector : pyobj)
    : res Z :=
  catch_type_error
    (let* entries := py_iter phase_vector in
     let* ts := mapM (fun e => getitem e (PInt 0)) entries in
     Ok (Z.of_nat (length (filter (fun t => py_eq t (PPhase p)) ts))))
    (-1)%Z.

Definition py_impulse_counter := py_phase_type_counter Impulse.
Definition py_collapse_counter := py_phase_type_counter Collapse.

(** [_phase_finder] *)
Definition phase_finder (phase_vector : pyobj) (phase : CurvePhases)
    : res (list nat) :=
  catch_type_error
    (let* entries := py_iter phase_vector in
     let* ts := mapM unpack2 entries in
     Ok (map fst (filter (fun it => py_eq (fst (snd it)) (PPhase phase))
                   (combine (seq 0 (length ts)) ts))))
    [].

(** [x[a:b]] for non-negative bounds. *)
Definition py_slice (a : pyobj) (lo hi : nat) : res pyobj :=
  match a with
  | PTuple xs => Ok (PTuple (firstn (hi - lo) (skipn lo xs)))
  | _ => Exc TypeError
  end.

(** [_py_inner_impulse_counter] *)
Definition py_inner_impulse_counter (phase_vector : pyobj) : res Z :=
  catch_type_error
    (let* acc := phase_finder phase_vector GrowthAcceleration in
     match acc with
     | [] => Ok (-1)%Z
     | a0 :: _ =>
         let* ret := phase_finder phase_vector GrowthRetardation in
         match rev ret with
         | [] => Ok (-1)%Z
         | r_last :: _ =>
             let* sl := py_slice phase_vector a0 r_last in
             py_impulse_counter sl
         end
     end)
    (-1)%Z.

(** [data[data < 0] = np.nan] on a counter array. *)
Definition ma_count (z : Z) : fl :=
  if Z.ltb z 0 then NaN else Fin (inject_Z z).

(** [lag = (impulse_intercept - flat_intercept) / (flat_slope - impulse_slope)]
    followed by [lag[lag < 0] = np.nan]. *)
Definition lag_array (flat_slope flat_intercept impulse_slope impulse_intercept
    : list fl) : res (list fl) :=
  let* num := zip_with fl_sub impulse_intercept flat_intercept in
  let* den := zip_with fl_sub flat_slope impulse_slope in
  let* lag := zip_with fl_div num den in
  Ok (map (fun x => if fl_lt x (Fin 0) then NaN else x) lag).

(** The InitialLag branch of [extract_phenotypes]. *)
Definition initial_lag (plate : list pyobj) : res (list fl) :=
  let* flat_slope := filter_plate_custom_filter Flat LinearModelSlope
                       non_empty (select_at 0) plate in
  let* flat_intercept := filter_plate_custom_filter Flat LinearModelIntercept
                           non_empty (select_at 0) plate in
  let* impulses_phase := get_phase_id plate [Flat; Impulse] in
  let* impulse_slope := filter_plate_on_phase_id plate impulses_phase
                          LinearModelSlope in
  let* impulse_intercept := filter_plate_on_phase_id plate impulses_phase
                              LinearModelIntercept in
  lag_array flat_slope flat_intercept impulse_slope impulse_intercept.

(** The TimeBeforeMajorGrowth branch of [extract_phenotypes]. *)
Definition time_before_major_growth (plate : list pyobj) : res (list fl) :=
  let* flat_slope := filter_plate_custom_filter Flat LinearModelSlope
                       non_empty (select_at 0) plate in
  let* flat_intercept := filter_plate_custom_filter Flat LinearModelIntercept
                           non_empty (select_at 0) plate in
  let* impulses_phase := mapM major_impulse_index_ma plate in
  let* impulse_slope := filter_plate_on_phase_id plate impulses_phase
                          LinearModelSlope in
  let* impulse_intercept := filter_plate_on_phase_id plate impulses_phase
                              LinearModelIntercept in
  lag_array flat_slope flat_intercept impulse_slope impulse_intercept.

(** The counter branches: [_np_ma_impulse_counter] and the like. *)
Definition count_plate (counter : pyobj -> res Z) (plate : list pyobj)
    : res (list fl) :=
  let* data := mapM counter plate in Ok (map ma_count data).

(* ------------------------------------------------------------------ *)
(** ** [_py_get_flanking_angle_relation] and [extract_phenotypes] *)

Section Extraction.

(** numpy's [np.arctan2], [np.pi] and [np.log2]: left abstract, every
    statement below holds whatever their values. *)
Variable np_arctan2 : fl -> fl -> fl.
Variable np_pi : fl.
Variable np_log2 : fl -> fl.

(** Argument of a numpy ufunc. *)
Definition num_arg (a : pyobj) : res fl :=
  match a with
  | PFloat f => Ok f
  | PInt z => Ok (Fin (inject_Z z))
  | _ => Exc TypeError
  end.

(** [a / b] on the numbers held in the phenotype dicts (numpy float64). *)
Definition py_div (a b : pyobj) : res pyobj :=
  let* x := num_arg a in let* y := num_arg b in Ok (PFloat (fl_div x y)).

(** [x + k] on an index. *)
Definition py_add_int (a : pyobj) (k : Z) : res pyobj :=
  match a with
  | PInt z => Ok (PInt (z + k))
  | PFloat f => Ok (PFloat (fl_add f (Fin (inject_Z k))))
  | _ => Exc TypeError
  end.

(** [np.isnan] *)
Definition py_isnan (a : pyobj) : res bool :=
  match a with
  | PFloat f => Ok (fl_isnan f)
  | PInt _ => Ok false
  | _ => Exc TypeError
  end.

Definition is_detected_non_linear (a : pyobj) : bool :=
  match a with PPhase p => is_detected_non_linear_phase p | _ => false end.

(** [impulse[1][LinearModelSlope]] and the like. *)
Definition segment_value (seg : pyobj) (k : CurvePhasePhenotypes) : res pyobj :=
  let* d := getitem seg (PInt 1) in getitem d (PKey k).

(** [_flank_angle(flank, impulse)] *)
Definition flank_angle (flank impulse : pyobj) : res pyobj :=
  if is_none flank then
    let* s := segment_value impulse LinearModelSlope in
    let* s' := num_arg s in
    Ok (PFloat (np_arctan2 (Fin 1) s'))
  else
    let* t := getitem flank (PInt 0) in
    if is_phase t Flat then
      let* s := segment_value impulse LinearModelSlope in
      let* s1 := num_arg s in
      let* fs := segment_value flank LinearModelSlope in
      let* s2 := num_arg fs in
      Ok (PFloat (fl_sub np_pi
                    (fl_abs (fl_sub (np_arctan2 (Fin 1) s1)
                                    (np_arctan2 (Fin 1) s2)))))
    else if is_detected_non_linear t then
      segment_value flank AsymptoteAngle
    else Ok (PFloat PInf).

(** [_py_get_flanking_angle_relation(phases, major_impulse_index)]; the
    error log written on a phase-label mismatch is not modelled. *)
Definition get_flanking_angle_relation (phases major_impulse_index : pyobj)
    : res pyobj :=
  let* nan := py_isnan major_impulse_index in
  if nan then Ok (PFloat PInf)
  else
    let* e := getitem phases major_impulse_index in
    let* d := getitem e (PInt 1) in
    if is_none d then Ok (PFloat PInf)
    else
      let* t := getitem e (PInt 0) in
      if negb (is_phase t Impulse) then Ok (PFloat PInf)
      else
        let* gt0 := py_lt (PInt 0) major_impulse_index in
        let* left :=
          (if gt0 then
             let* j := py_add_int major_impulse_index (-1) in getitem phases j
           else Ok PNone) in
        let* a1 := flank_angle left e in
        let* n := py_len phases in
        let* lt := py_lt major_impulse_index (PInt (Z.of_nat n - 1)) in
        let* right :=
          (if lt then
             let* j := py_add_int major_impulse_index 1 in getitem phases j
           else Ok PNone) in
        let* a2 := flank_angle right e in
        py_div a2 a1.

Definition fl_isfinite (a : fl) : bool :=
  match a with Fin _ => true | _ => false end.

(** [extract_phenotypes(plate, meta_phenotype, phenotypes)]; [low_point]
    and [low_point_when] are the plate's [ExperimentLowPoint] and
    [ExperimentLowPointWhen] arrays of [phenotypes]. *)
Definition extract_phenotypes (plate : list pyobj)
    (meta_phenotype : CurvePhaseMetaPhenotypes)
    (low_point low_point_when : list fl) : res (list fl) :=
  match meta_phenotype with
  | MajorImpulseYieldContribution =>
      filter_plate_custom_filter Impulse PopulationDoublings
        (at_least 1) (select_ranked (-1)) plate
  | FirstMinorImpulseYieldContribution =>
      filter_plate_custom_filter Impulse PopulationDoublings
        (at_least 2) (select_ranked (-2)) plate
  | MajorImpulseAveragePopulationDoublingTime =>
      filter_plate_custom_filter Impulse PopulationDoublingTime
        (at_least 1) (select_ranked (-1)) plate
  | FirstMinorImpulseAveragePopulationDoublingTime =>
      filter_plate_custom_filter Impulse PopulationDoublingTime
        (at_least 2) (select_ranked (-2)) plate
  | InitialLag => initial_lag plate
  | TimeBeforeMajorGrowth => time_before_major_growth plate
  | InitialLagAlternativeModel =>
      let* impulse_slope := filter_plate_custom_filter Impulse
                              LinearModelSlope non_empty (select_ranked (-1))
                              plate in
      let* impulse_intercept := filter_plate_custom_filter Impulse
                                  LinearModelIntercept non_empty
                                  (select_ranked (-1)) plate in
      let* impulse_start := filter_plate_custom_filter Impulse Start
                              non_empty (select_ranked (-1)) plate in
      let* num := zip_with fl_sub impulse_intercept (map np_log2 low_point) in
      let den := map (fl_sub (Fin 0)) impulse_slope in
      let* lag := zip_with fl_div num den in
      let* late := zip_with fl_lt impulse_start low_point_when in
      let* lag_late := zip_with pair lag late in
      let* masked :=
        zip_with (fun ll t =>
                    if fl_lt (fst ll) (Fin 0) || snd ll || negb (fl_isfinite t)
                    then NaN else fst ll) lag_late low_point_when in
      Ok masked
  | InitialAccelerationAsymptoteAngle =>
      filter_plate_custom_filter GrowthAcceleration AsymptoteAngle
        non_empty (select_at 0) plate
  | FinalRetardationAsymptoteAngle =>
      filter_plate_custom_filter GrowthRetardation AsymptoteAngle
        non_empty (select_at (-1)) plate
  | InitialAccelerationAsymptoteIntersect =>
      filter_plate_custom_filter GrowthAcceleration AsymptoteIntersection
        non_empty (select_at 0) plate
  | FinalRetardationAsymptoteIntersect =>
      filter_plate_custom_filter GrowthRetardation AsymptoteIntersection
        non_empty (select_at (-1)) plate
  | Modalities => count_plate py_impulse_counter plate
  | ModalitiesAlternativeModel => count_plate py_inner_impulse_counter plate
  | Collapses => count_plate py_collapse_counter plate
  | MajorImpulseFlankAsymmetry =>
      let* indices := mapM major_impulse_index_ma plate in
      let* rel := zip_withM get_flanking_angle_relation plate indices in
      mapM as_float rel
  end.

End Extraction.

(* ------------------------------------------------------------------ *)
(** ** Refinement passes of [get_phase_phenotypes_aligned] *)

(** [PhaseSide] *)
Inductive PhaseSide := Both | Left | Right.

(** A slot of the [phases] list: the dict with keys [PhaseData.Type],
    [PhaseData.Members] (a set of (curve, segment) pairs) and
    [PhaseData.Anchor] (absent until the first member is added). *)
Record slot := mk_slot {
  slot_type : CurvePhases;
  slot_members : list (nat * nat);
  slot_anchor : option fl
}.

Definition ref_eqb (a b : nat * nat) : bool :=
  Nat.eqb (fst a) (fst b) && Nat.eqb (snd a) (snd b).

(** [current_phase(phase_ref)]: index of the first slot holding the
    reference, else [None]. *)
Fixpoint current_phase_from (i : nat) (phases : list slot) (phase_ref : nat * nat)
    : pyobj :=
  match phases with
  | [] => PNone
  | s :: rest =>
      if existsb (ref_eqb phase_ref) (slot_members s) then PInt (Z.of_nat i)
      else current_phase_from (S i) rest phase_ref
  end.

Definition current_phase := current_phase_from 0.

(** [v[major][1][Start] + 0.5 * v[major][1][Duration]] *)
Definition major_phase_time_of (v major : pyobj) : res fl :=
  let* seg := getitem v major in
  let* s := segment_value seg Start in
  let* s' := num_arg s in
  let* d := segment_value seg Duration in
  let* d' := num_arg d in
  Ok (fl_add s' (fl_mul (Fin (1 # 2)) d')).

(** [sorted(phases, key=lambda x: x[PhaseData.Anchor])], as a stable
    insertion sort on [<] (Python's sort agrees with it when no anchor is
    NaN); a slot without anchor raises [KeyError]. *)
Fixpoint insert_by_anchor (a : fl) (s : slot) (l : list (fl * slot))
    : list (fl * slot) :=
  match l with
  | [] => [(a, s)]
  | (b, s') :: l' =>
      if fl_lt a b then (a, s) :: l else (b, s') :: insert_by_anchor a s l'
  end.

Definition sort_by_anchor (phases : list slot) : res (list slot) :=
  let* keyed := mapM (fun s => match slot_anchor s with
                               | Some a => Ok (a, s)
                               | None => Exc KeyError
                               end) phases in
  Ok (map snd (fold_left (fun acc x => insert_by_anchor (fst x) (snd x) acc)
                 keyed [])).

(** [int(0.05 * coords.size)]; for a count [n] the double product rounds to
    at least [n / 20], never to the integer below it. *)
Definition survival_threshold (coords_size : nat) : nat := coords_size / 20.

(** The list comprehension closing pass [n] (lines 1089-1094). *)
Definition end_of_pass (coords_size n : nat) (phases : list slot)
    : res (list slot) :=
  let* sorted := sort_by_anchor phases in
  Ok (filter (fun s => Nat.ltb (if Nat.eqb n 9 then 0
                                else survival_threshold coords_size)
                               (length (slot_members s))) sorted).

Section Refinement.

(** Lines 1035-1087 of the segment loop (keeping the major impulse in
    place, energies, moving a segment to its optimal slot or inserting a
    new one): left abstract, given the pass' [first_run] flag, the slots,
    [prev_phase], [side], [major_phase_time], [id_tup], [major_phase],
    [phase_data] and [cur_phase], it returns the new slots and
    [prev_phase]. *)
Variable segment_update :
  bool -> list slot -> pyobj -> PhaseSide -> option fl -> nat * nat ->
  pyobj -> pyobj -> pyobj -> res (list slot * pyobj).

(** [for id_phase, phase_data in enumerate(v): ...] *)
Fixpoint segments_loop (first_run : bool) (phases : list slot)
    (prev_phase : pyobj) (side : PhaseSide) (major_phase_time : option fl)
    (id_curve : nat) (major_phase : pyobj) (id_phase : nat)
    (segs : list pyobj) : res (list slot) :=
  match segs with
  | [] => Ok phases
  | phase_data :: rest =>
      let* skip := (if is_none phase_data then Ok true
                    else let* d := getitem phase_data (PInt 1) in
                         Ok (is_none d)) in
      if skip then
        segments_loop first_run phases prev_phase side major_phase_time
          id_curve major_phase (S id_phase) rest
      else
        let id_tup := (id_curve, id_phase) in
        let cur_phase := current_phase phases id_tup in
        let* side' :=
          (match side with
           | Both => Ok Both
           | _ => let* b := py_lt cur_phase major_phase in
                  Ok (if b then Left else Right)
           end) in
        let* r := segment_update first_run phases prev_phase side'
                    major_phase_time id_tup major_phase phase_data cur_phase in
        segments_loop first_run (fst r) (snd r) side' major_phase_time
          id_curve major_phase (S id_phase) rest
  end.

(** The body of [for id_curve, v in enumerate(plate_data)]. *)
Definition curve_step (first_run : bool) (phases : list slot) (id_curve : nat)
    (v major : pyobj) : res (list slot) :=
  let major_phase := PTuple [PInt (Z.of_nat id_curve); major] in
  let side := match major with PInt _ => Left | _ => Both end in
  let* major_phase_time :=
    (match side with
     | Both => Ok None
     | _ => let* t := major_phase_time_of v major in Ok (Some t)
     end) in
  let* segs := py_iter v in
  segments_loop first_run phases PNone side major_phase_time id_curve
    major_phase 0 segs.

Fixpoint curves_loop (first_run : bool) (phases : list slot) (id_curve : nat)
    (plate_data major_idx : list pyobj) : res (list slot) :=
  match plate_data, major_idx with
  | [], _ => Ok phases
  | _ :: _, [] => Exc IndexError
  | v :: vs, m :: ms =>
      let* phases' := curve_step first_run phases id_curve v m in
      curves_loop first_run phases' (S id_curve) vs ms
  end.

(** [for n in range(10): ...] from pass [n] on, [remaining] passes left. *)
Fixpoint refinement_passes (coords_size : nat) (plate_data major_idx : list pyobj)
    (n remaining : nat) (first_run : bool) (phases : list slot)
    : res (list slot) :=
  match remaining with
  | O => Ok phases
  | S r =>
      let* after := curves_loop first_run phases 0 plate_data major_idx in
      let* kept := end_of_pass coords_size n after in
      refinement_passes coords_size plate_data major_idx (S n) r false kept
  end.

Definition refinement_loop (coords_size : nat) (plate_data major_idx : list pyobj)
    (phases : list slot) : res (list slot) :=
  refinement_passes coords_size plate_data major_idx 0 10 true phases.

End Refinement.

(* ------------------------------------------------------------------ *)
(** ** [PhenotyperState.wipe_extracted_phenotypes] *)

Module State.

(** The dataclass [PhenotyperState]: its declared fields, and the other
    attributes set on the instance ([__dict__] entries beyond the fields). *)
Record PhenotyperState := mk_state {
  phenotypes : pyobj;
  raw_growth_data : pyobj;
  normalized_phenotypes : pyobj;
  meta_data : pyobj;
  phenotype_filter : pyobj;
  phenotype_filter_undo : pyobj;
  reference_surface_positions : pyobj;
  smooth_growth_data : pyobj;
  times_data : pyobj;
  vector_meta_phenotypes : pyobj;
  vector_phenotypes : pyobj;
  extra_attrs : list (string * pyobj)
}.

Fixpoint set_extra (name : string) (v : pyobj) (l : list (string * pyobj))
    : list (string * pyobj) :=
  match l with
  | [] => [(name, v)]
  | (n, w) :: l' =>
      if String.eqb n name then (name, v) :: l' else (n, w) :: set_extra name v l'
  end.

(** [setattr(self, name, v)] *)
Definition setattr (s : PhenotyperState) (name : string) (v : pyobj)
    : PhenotyperState :=
  let '(mk_state p r np md pf pfu rsp sg td vmp vp ex) := s in
  if String.eqb name "phenotypes" then
    mk_state v r np md pf pfu rsp sg td vmp vp ex
  else if String.eqb name "raw_growth_data" then
    mk_state p v np md pf pfu rsp sg td vmp vp ex
  else if String.eqb name "normalized_phenotypes" then
    mk_state p r v md pf pfu rsp sg td vmp vp ex
  else if String.eqb name "meta_data" then
    mk_state p r np v pf pfu rsp sg td vmp vp ex
  else if String.eqb name "phenotype_filter" then
    mk_state p r np md v pfu rsp sg td vmp vp ex
  else if String.eqb name "phenotype_filter_undo" then
    mk_state p r np md pf v rsp sg td vmp vp ex
  else if String.eqb name "reference_surface_positions" then
    mk_state p r np md pf pfu v sg td vmp vp ex
  else if String.eqb name "smooth_growth_data" then
    mk_state p r np md pf pfu rsp v td vmp vp ex
  else if String.eqb name "times_data" then
    mk_state p r np md pf pfu rsp sg v vmp vp ex
  else if String.eqb name "vector_meta_phenotypes" then
    mk_state p r np md pf pfu rsp sg td v vp ex
  else if String.eqb name "vector_phenotypes" then
    mk_state p r np md pf pfu rsp sg td vmp v ex
  else mk_state p r np md pf pfu rsp sg td vmp vp (set_extra name v ex).

(** [wipe_extracted_phenotypes(keep_filter)]; the log lines are not
    modelled. *)
Definition wipe_extracted_phenotypes (self : PhenotyperState)
    (keep_filter : bool) : PhenotyperState :=
  let self := setattr self "phenotypes" PNone in
  let self := setattr self "_vector_phenotypes" PNone in
  let self := setattr self "vector_meta_phenotypes" PNone in
  if keep_filter then self
  else
    let self := setattr self "phenotype_filter" PNone in
    setattr self "phenotype_filter_undo" PNone.

(** [has_phenotypes_for_plate(plate)] *)
Definition has_phenotypes_for_plate (self : PhenotyperState) (plate : Z)
    : res bool :=
  if is_none (phenotypes self) then Ok false
  else let* p := getitem (phenotypes self) (PInt plate) in Ok (negb (is_none p)).

(** [has_reference_surface_positions()] *)
Definition has_reference_surface_positions (self : PhenotyperState)
    : res bool :=
  if is_none (phenotypes self) then Ok false
  else
    let* a := py_len (reference_surface_positions self) in
    let* b := py_len (phenotypes self) in
    Ok (Nat.eqb a b).

(** [has_phenotype_filter()] *)
Definition has_phenotype_filter (self : PhenotyperState) : res bool :=
  if is_none (phenotype_filter self) then Ok false
  else
    let* a := py_len (phenotypes self) in
    let* b := py_len (phenotype_filter self) in
    Ok (Nat.eqb a b).

(** [has_phenotype_filter_undo()] *)
Definition has_phenotype_filter_undo (self : PhenotyperState) : res bool :=
  if is_none (phenotype_filter_undo self) then Ok false
  else
    let* a := py_len (phenotypes self) in
    let* b := py_len (phenotype_filter_undo self) in
    Ok (Nat.eqb a b).

(** [__post_init__]; [lower_right] stands for the value of a fresh
    [Offsets.LowerRight()], one per plate of [enumerate_plates]. *)
Definition post_init (lower_right : pyobj) (self : PhenotyperState)
    : res PhenotyperState :=
  let* a := py_len (reference_surface_positions self) in
  let* n := py_len (raw_growth_data self) in
  if Nat.eqb a n then Ok self
  else Ok (setattr self "reference_surface_positions"
             (PTuple (repeat lower_right n))).

(** Reading an attribute of the instance: the declared fields aside, only
    what [setattr] put in the instance dict is there; a missing one raises
    [AttributeError]. *)
Fixpoint lookup_extra (name : string) (l : list (string * pyobj))
    : option pyobj :=
  match l with
  | [] => None
  | (n, v) :: l' => if String.eqb n name then Some v else lookup_extra name l'
  end.

Definition instance_attr (self : PhenotyperState) (name : string)
    : option pyobj :=
  lookup_extra name (extra_attrs self).

(** The outcome of a state method that reads undeclared attributes. *)
Inductive outcome (A : Type) :=
| Returns (a : A)
| Raises (e : exn)
| AttributeError (name : string).
Arguments Returns {A} a.
Arguments Raises {A} e.
Arguments AttributeError {A} name.

Section ArrayQueries.

(** [phenotype in plate] for the queried phenotype, [isinstance(x,
    np.ndarray)] and [x.size] of an array: numpy and the phenotype
    containers are left abstract. *)
Variable plate_has : pyobj -> bool.
Variable is_ndarray : pyobj -> bool.
Variable np_size : pyobj -> nat.

(** [has_phenotype_on_any_plate(phenotype)] *)
Definition has_phenotype_on_any_plate (self : PhenotyperState) : outcome bool :=
  match instance_attr self "_phenotypes" with
  | None => AttributeError "_phenotypes"
  | Some v =>
      if is_none v then Returns false
      else
        match py_iter (phenotypes self) with
        | Exc e => Raises e
        | Ok plates =>
            Returns (existsb (fun plate => negb (is_none plate) && plate_has plate)
                       plates)
        end
  end.

(** [has_normalized_data()] *)
Definition has_normalized_data (self : PhenotyperState) : outcome bool :=
  match instance_attr self "normalizable_phenotypes" with
  | None => AttributeError "normalizable_phenotypes"
  | Some v =>
      if is_none v then Returns false
      else if negb (is_ndarray (normalized_phenotypes self)) then Returns false
      else
        match py_iter (normalized_phenotypes self) with
        | Exc e => Raises e
        | Ok plates =>
            if forallb (fun plate => is_none plate || Nat.eqb (np_size plate) 0)
                 plates
            then Returns false
            else Returns (Nat.ltb 0 (np_size (normalized_phenotypes self)))
        end
  end.

End ArrayQueries.

(** [has_smooth_growth_data()]: [len(self.smooth_growth_data)] is taken
    before [self.state.raw_growth_data]; [state] is not a field, and no
    value held in the instance dict has an attribute [raw_growth_data], so
    the comparison of shapes after it is never reached. *)
Definition has_smooth_growth_data (self : PhenotyperState) : outcome bool :=
  if is_none (smooth_growth_data self) then Returns false
  else
    match py_len (smooth_growth_data self) with
    | Exc e => Raises e
    | Ok _ =>
        match instance_attr self "state" with
        | None => AttributeError "state"
        | Some _ => AttributeError "raw_growth_data"
        end
    end.

End State.

(* ------------------------------------------------------------------ *)
(** ** Per-cell view of [extract_phenotypes] *)

(** A well-formed PhaseVector: a tuple of [(phase, phenotypes)] pairs. *)
Definition phase_vector (segs : list (CurvePhases * pyobj)) : pyobj :=
  PTuple (map (fun s => PTuple [PPhase (fst s); snd s]) segs).

(** A segment phenotype dict holding numbers. *)
Definition pheno_dict (kvs : list (CurvePhasePhenotypes * Q)) : pyobj :=
  PDict (map (fun kv => (fst kv, PFloat (Fin (snd kv)))) kvs).

(** The value of one cell in a [filter_plate_custom_filter] array. *)
Definition custom_filter_value (phase : CurvePhases)
    (measure : CurvePhasePhenotypes) (req : list pyobj -> bool)
    (sel : list pyobj -> res pyobj) (pv : pyobj) : res fl :=
  let* o := custom_filter_cell phase measure req sel pv in as_float o.

(** The value of one cell in a [filter_plate_on_phase_id] array. *)
Definition on_phase_id_value (measure : CurvePhasePhenotypes) (pv id : pyobj)
    : res fl :=
  let* o := on_phase_id_cell measure pv id in as_float o.

(** The crossing time of the flat and impulse lines, negative values
    replaced by NaN: one cell of [lag_array]. *)
Definition crossing_time (flat_slope flat_intercept impulse_slope
    impulse_intercept : fl) : fl :=
  let lag := fl_div (fl_sub impulse_intercept flat_intercept)
                    (fl_sub flat_slope impulse_slope) in
  if fl_lt lag (Fin 0) then NaN else lag.

(** One cell of InitialLag / TimeBeforeMajorGrowth, given how the impulse
    index of the cell is found. *)
Definition lag_cell (impulse_id : pyobj -> res pyobj) (pv : pyobj) : res fl :=
  let* fs := custom_filter_value Flat LinearModelSlope non_empty (select_at 0) pv in
  let* fi := custom_filter_value Flat LinearModelIntercept non_empty
               (select_at 0) pv in
  let* id := impulse_id pv in
  let* is := on_phase_id_value LinearModelSlope pv id in
  let* ii := on_phase_id_value LinearModelIntercept pv id in
  Ok (crossing_time fs fi is ii).

Definition flat_impulse_id (pv : pyobj) : res pyobj :=
  let* z := get_phase_id_cell [Flat; Impulse] pv in Ok (PInt z).

(** A cell of a plate together with its [ExperimentLowPoint] and
    [ExperimentLowPointWhen] values. *)
Definition cell := (pyobj * (fl * fl))%type.

Definition cells_of (plate : list pyobj) (low_point low_point_when : list fl)
    : list cell :=
  combine plate (combine low_point low_point_when).

Section CellView.

Variable np_arctan2 : fl -> fl -> fl.
Variable np_pi : fl.
Variable np_log2 : fl -> fl.

(** The value [extract_phenotypes] computes for one cell. *)
Definition extract_cell (meta_phenotype : CurvePhaseMetaPhenotypes) (c : cell)
    : res fl :=
  let pv := fst c in
  let lp := fst (snd c) in
  let lw := snd (snd c) in
  match meta_phenotype with
  | MajorImpulseYieldContribution =>
      custom_filter_value Impulse PopulationDoublings (at_least 1)
        (select_ranked (-1)) pv
  | FirstMinorImpulseYieldContribution =>
      custom_filter_value Impulse PopulationDoublings (at_least 2)
        (select_ranked (-2)) pv
  | MajorImpulseAveragePopulationDoublingTime =>
      custom_filter_value Impulse PopulationDoublingTime (at_least 1)
        (select_ranked (-1)) pv
  | FirstMinorImpulseAveragePopulationDoublingTime =>
      custom_filter_value Impulse PopulationDoublingTime (at_least 2)
        (select_ranked (-2)) pv
  | InitialLag => lag_cell flat_impulse_id pv
  | TimeBeforeMajorGrowth => lag_cell major_impulse_index_ma pv
  | InitialLagAlternativeModel =>
      let* is := custom_filter_value Impulse LinearModelSlope non_empty
                   (select_ranked (-1)) pv in
      let* ii := custom_filter_value Impulse LinearModelIntercept non_empty
                   (select_ranked (-1)) pv in
      let* st := custom_filter_value Impulse Start non_empty
                   (select_ranked (-1)) pv in
      let lag := fl_div (fl_sub ii (np_log2 lp)) (fl_sub (Fin 0) is) in
      Ok (if fl_lt lag (Fin 0) || fl_lt st lw || negb (fl_isfinite lw)
          then NaN else lag)
  | InitialAccelerationAsymptoteAngle =>
      custom_filter_value GrowthAcceleration AsymptoteAngle non_empty
        (select_at 0) pv
  | FinalRetardationAsymptoteAngle =>
      custom_filter_value GrowthRetardation AsymptoteAngle non_empty
        (select_at (-1)) pv
  | InitialAccelerationAsymptoteIntersect =>
      custom_filter_value GrowthAcceleration AsymptoteIntersection non_empty
        (select_at 0) pv
  | FinalRetardationAsymptoteIntersect =>
      custom_filter_value GrowthRetardation AsymptoteIntersection non_empty
        (select_at (-1)) pv
  | Modalities => let* z := py_impulse_counter pv in Ok (ma_count z)
  | ModalitiesAlternativeModel =>
      let* z := py_inner_impulse_counter pv in Ok (ma_count z)
  | Collapses => let* z := py_collapse_counter pv in Ok (ma_count z)
  | MajorImpulseFlankAsymmetry =>
      let* idx := major_impulse_index_ma pv in
      let* r := get_flanking_angle_relation np_arctan2 np_pi pv idx in
      as_float r
  end.

End CellView.

(** The value [extract_phenotypes] gives a cell whose PhaseVector cannot be
    iterated. *)
Definition non_iterable_value (kind : CurvePhaseMetaPhenotypes) : fl :=
  match kind with MajorImpulseFlankAsymmetry => PInf | _ => NaN end.

(* ------------------------------------------------------------------ *)
(** ** Positions of phases, as the spec describes them *)

(** Index of the first segment of phase [p]. *)
Fixpoint find_index (p : CurvePhases) (ts : list CurvePhases) : option nat :=
  match ts with
  | [] => None
  | t :: ts' =>
      if phase_eqb t p then Some 0 else option_map S (find_index p ts')
  end.

(** Index of the last segment of phase [p]. *)
Fixpoint last_index (p : CurvePhases) (ts : list CurvePhases) : option nat :=
  match ts with
  | [] => None
  | t :: ts' =>
      match last_index p ts' with
      | Some k => Some (S k)
      | None => if phase_eqb t p then Some 0 else None
      end
  end.

(** The indices, counted from [s], of the segments of phase [p]. *)
Definition positions (s : nat) (p : CurvePhases) (ts : list CurvePhases)
    : list nat :=
  map fst (filter (fun it => phase_eqb (snd it) p)
             (combine (seq s (length ts)) ts)).

(** The first Impulse coming (anywhere) after the first Flat. *)
Definition first_impulse_after_first_flat (ts : list CurvePhases) : option nat :=
  match find_index Flat ts with
  | None => None
  | Some f =>
      option_map (fun k => S f + k) (find_index Impulse (skipn (S f) ts))
  end.

(** ModalitiesAlternativeModel as the spec words it: the Impulse segments
    strictly between the first Acceleration and the last Retardation, NaN
    when one of them is absent. *)
Definition nested_impulses (ts : list CurvePhases) : fl :=
  match find_index GrowthAcceleration ts, last_index GrowthRetardation ts with
  | Some a, Some r =>
      Fin (inject_Z (Z.of_nat
        (length (filter (fun it => Nat.ltb a (fst it) && Nat.ltb (fst it) r
                                   && phase_eqb (snd it) Impulse)
                        (combine (seq 0 (length ts)) ts)))))
  | _, _ => NaN
  end.

(* ------------------------------------------------------------------ *)
(** ** Concrete curves *)

(** Two impulses of 1.0 and 3.0 doublings, then a Flat one. *)
Definition curve_I1_I3_F := phase_vector
  [(Impulse, pheno_dict [(PopulationDoublings, 1)]%Q);
   (Impulse, pheno_dict [(PopulationDoublings, 3)]%Q);
   (Flat, pheno_dict [(PopulationDoublings, 0)]%Q)].

(** A single impulse of 2.0 doublings. *)
Definition curve_I2 := phase_vector
  [(Impulse, pheno_dict [(PopulationDoublings, 2)]%Q)].

(** Impulses of 2.0, 0.0 and 1.0 doublings. *)
Definition curve_I2_I0_I1 := phase_vector
  [(Impulse, pheno_dict [(PopulationDoublings, 2)]%Q);
   (Impulse, pheno_dict [(PopulationDoublings, 0)]%Q);
   (Impulse, pheno_dict [(PopulationDoublings, 1)]%Q)].

(** Acceleration, impulse (1.0), retardation, impulse (3.0), retardation. *)
Definition curve_flanked := phase_vector
  [(GrowthAcceleration,
    pheno_dict [(PopulationDoublings, 1 # 4); (AsymptoteAngle, 1)]%Q);
   (Impulse, pheno_dict [(PopulationDoublings, 1); (LinearModelSlope, 1)]%Q);
   (GrowthRetardation,
    pheno_dict [(PopulationDoublings, 1 # 2); (AsymptoteAngle, 1)]%Q);
   (Impulse, pheno_dict [(PopulationDoublings, 3); (LinearModelSlope, 1)]%Q);
   (GrowthRetardation,
    pheno_dict [(PopulationDoublings, 3 # 4); (AsymptoteAngle, 4)]%Q)].

(** Flat (slope 0, intercept 1), Acceleration, Impulse (slope 1,
    intercept -2): the Impulse does not directly follow the Flat. *)
Definition curve_F_A_I := phase_vector
  [(Flat, pheno_dict [(PopulationDoublings, 0); (LinearModelSlope, 0);
                      (LinearModelIntercept, 1)]%Q);
   (GrowthAcceleration,
    pheno_dict [(PopulationDoublings, 1 # 4); (AsymptoteAngle, 1)]%Q);
   (Impulse, pheno_dict [(PopulationDoublings, 2); (LinearModelSlope, 1);
                         (LinearModelIntercept, -2)]%Q)].

(** Flat then Impulse, with start times and durations. *)
Definition curve_F_I := phase_vector
  [(Flat, pheno_dict [(PopulationDoublings, 0); (Start, 0); (Duration, 1)]%Q);
   (Impulse, pheno_dict [(PopulationDoublings, 2); (Start, 1);
                         (Duration, 2)]%Q)].

(** Impulses of 1.0, 3.0 and 2.0 doublings, a Flat segment between the
    first two. *)
Definition curve_I1_F_I3_I2 := phase_vector
  [(Impulse, pheno_dict [(PopulationDoublings, 1)]%Q);
   (Flat, pheno_dict [(PopulationDoublings, 0)]%Q);
   (Impulse, pheno_dict [(PopulationDoublings, 3)]%Q);
   (Impulse, pheno_dict [(PopulationDoublings, 2)]%Q)].

(** The slots built by lines 950-1001 for the plate [[curve_F_I]] (major
    impulse index 1): the left pass uses [major_phase_time] = 1 / 0.5 * 2 = 4,
    giving the Flat slot the anchor 0 / 4 - 1 + 0.5 * 1 / 4 = -7/8 and the
    major slot the anchor 1 / 4 - 1 + 0.5 * 2 / 4 = -1/2; the right pass adds
    nothing. *)
Definition slots_after_init_F_I : list slot :=
  [mk_slot Flat [(0, 0)] (Some (Fin (-7 # 8)));
   mk_slot Impulse [(0, 1)] (Some (Fin (-1 # 2)))].

(* ------------------------------------------------------------------ *)
(** ** The slot helpers of [get_phase_phenotypes_aligned] *)

(** IEEE [<=] *)
Definition fl_le (a b : fl) : bool := fl_lt a b || fl_eqb a b.

(** [min(x, y)]: the first argument unless the second is smaller. *)
Definition fl_min (x y : fl) : fl := if fl_lt y x then y else x.

(** The relative start of a segment, computed alike in [insert_phase],
    [add_to_phase] and [get_energy]:
    [pp[1][Start] / major_phase_time - 1.0 if pp[1][Start] < major_phase_time
    else (pp[1][Start] - major_phase_time) / (end_time - major_phase_time)];
    the times are numpy float64 values ([end_time] is [times.max()]). *)
Definition relative_start (pp : pyobj) (end_time : fl) (major_phase_time : pyobj)
    : res fl :=
  let* s := segment_value pp Start in
  let* early := py_lt s major_phase_time in
  let* s' := num_arg s in
  let* m := num_arg major_phase_time in
  if early then Ok (fl_sub (fl_div s' m) (Fin 1))
  else Ok (fl_div (fl_sub s' m) (fl_sub end_time m)).

(** [start + (f * pp[1][Duration] / major_phase_time if start < 0 else
    f * pp[1][Duration] / (end_time - major_phase_time))]: with no factor
    [f] the [end] of [get_energy], with [f = 0.5] the [anchor] of
    [insert_phase] and [add_to_phase]. *)
Definition relative_offset (f : option Q) (pp : pyobj) (end_time : fl)
    (major_phase_time : pyobj) (start : fl) : res fl :=
  let* du := segment_value pp Duration in
  let* d := num_arg du in
  let d' := match f with Some q => fl_mul (Fin q) d | None => d end in
  let* m := num_arg major_phase_time in
  if fl_lt start (Fin 0) then Ok (fl_add start (fl_div d' m))
  else Ok (fl_add start (fl_div d' (fl_sub end_time m))).

(** [get_energy(phase, phase_phenotypes, end_time, major_phase_time)] *)
Definition get_energy (phase : slot) (pp : pyobj) (end_time : fl)
    (major_phase_time : pyobj) : res fl :=
  let* t := getitem pp (PInt 0) in
  if negb (is_phase t (slot_type phase)) then Ok PInf
  else
    let* start := relative_start pp end_time major_phase_time in
    let* en := relative_offset None pp end_time major_phase_time start in
    match slot_anchor phase with
    | None => Ok (Fin 0)
    | Some a =>
        if fl_le start a && fl_le a en then Ok (Fin 0)
        else Ok (fl_div (fl_min (fl_abs (fl_sub a en)) (fl_abs (fl_sub a start)))
                        (fl_sub en start))
    end.

(** [phase[PhaseData.Members].add(phase_ref)] *)
Definition set_add (r : nat * nat) (ms : list (nat * nat)) : list (nat * nat) :=
  if existsb (ref_eqb r) ms then ms else ms ++ [r].

(** [add_to_phase(phase_phenotypes, phase_ref, phase, end_time,
    major_phase_time, w=0.9)], returning the updated slot; [1 - w] is kept
    as the exact [1/10]. *)
Definition add_to_phase (pp : pyobj) (phase_ref : nat * nat) (phase : slot)
    (end_time : fl) (major_phase_time : pyobj) : res slot :=
  let* start := relative_start pp end_time major_phase_time in
  let* anchor := relative_offset (Some (1 # 2)) pp end_time major_phase_time
                   start in
  let a' := match slot_anchor phase with
            | Some a => fl_add (fl_mul (Fin (9 # 10)) a)
                               (fl_mul (Fin (1 # 10)) anchor)
            | None => anchor
            end in
  Ok (mk_slot (slot_type phase) (set_add phase_ref (slot_members phase))
         (Some a')).

(** [range(lo, hi)] *)
Definition py_range (lo hi : Z) : list Z :=
  map (fun k => (lo + Z.of_nat k)%Z) (seq 0 (Z.to_nat (hi - lo))).

(** [get_possible(prev_phase, side)], over the current slots and the
    [major_phase_id] of the enclosing function. *)
Definition get_possible (phases : list slot) (major_phase_id : nat)
    (prev_phase : pyobj) (side : PhaseSide) : res (list Z) :=
  let* lo := match prev_phase with
             | PNone => Ok 0%Z
             | PInt z => Ok z
             | _ => Exc TypeError
             end in
  match side with
  | Both => Ok (py_range lo (Z.of_nat (length phases)))
  | Left => Ok (py_range lo (Z.of_nat major_phase_id))
  | Right =>
      Ok (py_range 0 (Z.max (Z.of_nat major_phase_id + 1)
                            (Z.max lo (Z.of_nat (length phases)))))
  end.

(** [phases[phase_id]] *)
Definition slot_at (phases : list slot) (i : Z) : res slot :=
  match index_list phases i with Some s => Ok s | None => Exc IndexError end.

(** The loop [for phase_id in possible] of [optimal_phase]. *)
Fixpoint optimal_loop (phases : list slot) (pp : pyobj) (end_time : fl)
    (major_phase_time : pyobj) (possible : list Z) (min_e : option fl)
    (best_id : option Z) : res (option Z) :=
  match possible with
  | [] => Ok best_id
  | phase_id :: rest =>
      let* s := slot_at phases phase_id in
      let* energy := get_energy s pp end_time major_phase_time in
      if fl_lt energy (Fin 1)
         && match min_e with None => true | Some m => fl_lt energy m end
      then optimal_loop phases pp end_time major_phase_time rest
             (Some energy) (Some phase_id)
      else optimal_loop phases pp end_time major_phase_time rest min_e best_id
  end.

(** [optimal_phase(phase_phenotypes, phase_ref, prev_phase, side, end_time,
    major_phase_time)]; [if phase_ref:] always holds, [phase_ref] being a
    two-element tuple. *)
Definition optimal_phase (phases : list slot) (major_phase_id : nat)
    (pp : pyobj) (phase_ref : nat * nat) (prev_phase : pyobj)
    (side : PhaseSide) (end_time : fl) (major_phase_time : pyobj)
    : res (option Z) :=
  let* possible := get_possible phases major_phase_id prev_phase side in
  if Nat.leb (length phases) (snd phase_ref) then Ok None
  else
    let* s := slot_at phases (Z.of_nat (snd phase_ref)) in
    let* min_e := get_energy s pp end_time major_phase_time in
    optimal_loop phases pp end_time major_phase_time possible (Some min_e)
      (Some (Z.of_nat (snd phase_ref))).

(** Modelled from the spec: the members of [CurvePhases] in the order
    [for phase in CurvePhases] visits them. *)
Definition all_phases : list CurvePhases :=
  [Undetermined; Flat; GrowthAcceleration; Impulse; GrowthRetardation;
   Collapse; UndeterminedNonLinear].

(** The loop of [append_phases(data, phase_ref, end_time, major_phase_time)]. *)
Fixpoint append_loop (members : list CurvePhases) (phases : list slot)
    (data : pyobj) (phase_ref : nat * nat) (end_time : fl)
    (major_phase_time : pyobj) : res (list slot) :=
  match members with
  | [] => Ok phases
  | phase :: rest =>
      if phase_eqb phase Undetermined then
        append_loop rest phases data phase_ref end_time major_phase_time
      else
        let* t := getitem data (PInt 0) in
        if negb (is_phase t phase) then
          append_loop rest phases data phase_ref end_time major_phase_time
        else
          let* t' := getitem data (PInt 0) in
          if is_phase t' phase then
            let* s := add_to_phase data phase_ref (mk_slot phase [] None)
                        end_time major_phase_time in
            append_loop rest (phases ++ [s]) data phase_ref end_time
              major_phase_time
          else
            append_loop rest (phases ++ [mk_slot phase [] None]) data phase_ref
              end_time major_phase_time
  end.

Definition append_phases := append_loop all_phases.

(** The loop [for phase_id in possible: if phases[phase_id][Anchor] > anchor:
    break] of [insert_phase]: the [phase_id] it leaves behind, [None] when
    [possible] is empty. *)
Fixpoint insert_position (phases : list slot) (anchor : fl) (possible : list Z)
    (phase_id : option Z) : res (option Z) :=
  match possible with
  | [] => Ok phase_id
  | k :: rest =>
      let* s := slot_at phases k in
      match slot_anchor s with
      | None => Exc KeyError
      | Some a =>
          if fl_lt anchor a then Ok (Some k)
          else insert_position phases anchor rest (Some k)
      end
  end.

(** [lst.insert(i, x)]: a negative [i] counts from the end, and the
    position is clamped to [0 .. len(lst)]. *)
Definition list_insert {A} (i : Z) (x : A) (l : list A) : list A :=
  let n := Z.of_nat (length l) in
  let j := Z.to_nat (if Z.ltb i 0 then Z.max 0 (i + n) else Z.min i n) in
  firstn j l ++ x :: skipn j l.

(** [lst[i] = x] for an index [i] that [index_list] accepts. *)
Definition list_set {A} (i : Z) (x : A) (l : list A) : list A :=
  let j := Z.to_nat (if Z.ltb i 0 then (i + Z.of_nat (length l))%Z else i) in
  firstn j l ++ x :: skipn (S j) l.

(** [insert_phase(phase_phenotypes, id_tup, prev_phase, side, end_time,
    major_phase_time)]; the segment label [phase_phenotypes[0]] is a
    [CurvePhases] member (a slot's type is one), any other label is outside
    the model and gives [TypeError]. *)
Definition insert_phase (phases : list slot) (major_phase_id : nat)
    (pp : pyobj) (id_tup : nat * nat) (prev_phase : pyobj) (side : PhaseSide)
    (end_time : fl) (major_phase_time : pyobj) : res (list slot) :=
  let* possible := get_possible phases major_phase_id prev_phase side in
  let* start := relative_start pp end_time major_phase_time in
  let* anchor := relative_offset (Some (1 # 2)) pp end_time major_phase_time
                   start in
  let* pos := insert_position phases anchor possible None in
  match pos with
  | None => append_phases phases pp id_tup end_time major_phase_time
  | Some phase_id =>
      let* t := getitem pp (PInt 0) in
      match t with
      | PPhase ty =>
          let phases1 := list_insert phase_id (mk_slot ty [] None) phases in
          let* s := slot_at phases1 phase_id in
          let* s' := add_to_phase pp id_tup s end_time major_phase_time in
          Ok (list_set phase_id s' phases1)
      | _ => Exc TypeError
      end
  end.

(* ------------------------------------------------------------------ *)
(** ** [_get_index_array] and [get_phase_assignment_data] *)

(** [np.mgrid[:r, :c]], both index grids raveled in row-major order. *)
Definition mgrid_rows (r c : nat) : list nat :=
  flat_map (fun i => repeat i c) (seq 0 r).

Definition mgrid_cols (r c : nat) : list nat :=
  flat_map (fun _ => seq 0 c) (seq 0 r).

(** [_get_index_array(shape)]: [a2.ravel()[:] = length] fills the [r] by
    [c] object array in row-major order. *)
Definition get_index_array (shape : nat * nat) : list (list (nat * nat)) :=
  let '(r, c) := shape in
  let pairs := combine (mgrid_rows r c) (mgrid_cols r c) in
  map (fun i => firstn c (skipn (i * c) pairs)) (seq 0 r).

(** What [phenotypes.get_curve_phases(plate, x, y)] returns: [None], or an
    integer array given by its shape and its row-major elements. *)
Inductive curve_phases_value :=
| CPNone
| CPArray (shape : list nat) (elements : list Z).

(** The loop of [get_phase_assignment_data], over the curves in the order
    of [enumerate_plate_positions]; the rows given to [np.ma.array]. *)
Fixpoint assignment_rows (vs : list curve_phases_value)
    (vshape : option (list nat)) : list (list Z) :=
  match vs with
  | [] => []
  | CPNone :: rest => assignment_rows rest vshape
  | CPArray sh d :: rest =>
      if Nat.eqb (length sh) 1 && negb (Nat.eqb (hd 0 sh) 0)
         && match vshape with
            | None => true
            | Some vs' => if list_eq_dec Nat.eq_dec sh vs' then true else false
            end
      then d :: assignment_rows rest (match vshape with
                                      | None => Some sh
                                      | Some _ => vshape
                                      end)
      else assignment_rows rest vshape
  end.

Definition get_phase_assignment_data (vs : list curve_phases_value)
    : list (list Z) :=
  assignment_rows vs None.

(* ================================================================== *)
(** * Theorems *)

(** ** Helpers on the error monad *)

Lemma bind_Ok {A B} (a : A) (k : A -> res B) : bind (Ok a) k = k a.
Proof. reflexivity. Qed.

Lemma bind_Exc {A B} (e : exn) (k : A -> res B) : bind (Exc e) k = Exc e.
Proof. reflexivity. Qed.

(** ** Major impulse located plate-wide *)

(** C1: on the curve [Impulse 1.0; Impulse 3.0; Flat], whose highest
    doublings Impulse is segment 1, the plate-wide major-impulse index is 0
    (the argsort position is returned instead of the segment index); on a
    curve whose only segment is an Impulse of 2.0 doublings the index is NaN
    ([impulses.any()] is false for the single row (0, 0)). *)
Theorem major_impulse_index_not_highest_impulse :
  major_impulse_index_ma curve_I1_I3_F = Ok (PInt 0) /\
  major_impulse_index_ma curve_I2 = Ok (PFloat NaN).
Proof. split; vm_compute; reflexivity. Qed.

(** C10: on the curve [Impulse 2.0; Impulse 0.0; Impulse 1.0] the
    plate-wide major-impulse index is 1, the zero-doublings Impulse. *)
Theorem major_impulse_index_selects_zero_doublings :
  major_impulse_index_ma curve_I2_I0_I1 = Ok (PInt 1) /\
  getitem curve_I2_I0_I1 (PInt 1)
  = Ok (PTuple [PPhase Impulse; pheno_dict [(PopulationDoublings, 0)]%Q]).
Proof. split; vm_compute; reflexivity. Qed.

(** C5: on [Acceleration (angle 1); Impulse 1.0; Retardation (angle 1);
    Impulse 3.0; Retardation (angle 4)] MajorImpulseFlankAsymmetry is the
    flank ratio 1 of the 1.0-doublings Impulse at index 1, while the flank
    ratio of the 3.0-doublings Impulse at index 3 is 4. *)
Theorem flank_asymmetry_of_wrong_impulse :
  forall np_arctan2 np_pi np_log2,
    extract_phenotypes np_arctan2 np_pi np_log2 [curve_flanked]
      MajorImpulseFlankAsymmetry [] []
    = Ok [Fin 1] /\
    get_flanking_angle_relation np_arctan2 np_pi curve_flanked (PInt 3)
    = Ok (PFloat (Fin 4)).
Proof. intros; split; vm_compute; reflexivity. Qed.

(** C3, counterexample: in [Flat; Acceleration; Impulse] no Impulse
    directly follows a Flat, yet InitialLag is the crossing time 3 of the
    Flat line and the line of the Impulse at index 2, not NaN. *)
Lemma initial_lag_without_adjacent_flat_impulse :
  get_phase_id_cell [Flat; Impulse] curve_F_A_I = Ok 2%Z /\
  initial_lag [curve_F_A_I] = Ok [Fin 3].
Proof. split; vm_compute; reflexivity. Qed.

(** ** Refinement passes of the alignment *)

Lemma current_phase_from_cases : forall phases i ref,
  current_phase_from i phases ref = PNone \/
  exists z, current_phase_from i phases ref = PInt z.
Proof.
  induction phases as [|s rest IH]; intros i ref; simpl.
  - left; reflexivity.
  - destruct (existsb (ref_eqb ref) (slot_members s)).
    + right; eexists; reflexivity.
    + apply IH.
Qed.

(** C7: whatever the rest of the segment body does, the first refinement
    pass raises [TypeError] at the first segment of the first curve that has
    phenotype data: [cur_phase < major_phase] compares an int (or [None])
    with the tuple [(id_curve, major_idx[id_curve])]. No pass completes. *)
Theorem refinement_loop_raises_type_error :
  forall segment_update coords_size v vs m ms phases seg segs d t,
    v = PTuple (seg :: segs) ->
    is_none seg = false ->
    getitem seg (PInt 1) = Ok d ->
    is_none d = false ->
    major_phase_time_of v (PInt m) = Ok t ->
    refinement_loop segment_update coords_size (v :: vs) (PInt m :: ms) phases
    = Exc TypeError.
Proof.
  intros segment_update coords_size v vs m ms phases seg segs d t
    Hv Hseg Hd Hdn Ht.
  unfold refinement_loop, refinement_passes, curves_loop, curve_step.
  rewrite Ht, bind_Ok, bind_Ok.
  subst v; simpl py_iter; rewrite bind_Ok.
  simpl segments_loop.
  rewrite Hseg, Hd, bind_Ok, Hdn.
  destruct (current_phase_from_cases phases 0 (0, 0)) as [Hc | [z Hc]];
    unfold current_phase; rewrite Hc; reflexivity.
Qed.

Lemma refinement_loop_raises_type_error_witness :
  refinement_loop (fun _ ps _ _ _ _ _ _ _ => Ok (ps, PNone)) 1
    [curve_F_I] [PInt 1] slots_after_init_F_I = Exc TypeError.
Proof.
  eapply (refinement_loop_raises_type_error
            (fun _ ps _ _ _ _ _ _ _ => Ok (ps, PNone)) 1 curve_F_I [] 1 []
            slots_after_init_F_I); reflexivity.
Defined.

(** ** Wiping extracted phenotypes *)

(** C9: [wipe_extracted_phenotypes] sets [phenotypes] and
    [vector_meta_phenotypes] to None, and without [keep_filter] also
    [phenotype_filter] and [phenotype_filter_undo] (kept with it); it stores
    None in a new attribute [_vector_phenotypes], so the [vector_phenotypes]
    field and [raw_growth_data] keep their values. *)
Theorem wipe_extracted_phenotypes_frame : forall s keep_filter,
  let s' := State.wipe_extracted_phenotypes s keep_filter in
  State.phenotypes s' = PNone /\
  State.vector_meta_phenotypes s' = PNone /\
  (if keep_filter
   then State.phenotype_filter s' = State.phenotype_filter s /\
        State.phenotype_filter_undo s' = State.phenotype_filter_undo s
   else State.phenotype_filter s' = PNone /\
        State.phenotype_filter_undo s' = PNone) /\
  State.vector_phenotypes s' = State.vector_phenotypes s /\
  State.raw_growth_data s' = State.raw_growth_data s /\
  State.extra_attrs s'
  = State.set_extra "_vector_phenotypes" PNone (State.extra_attrs s).
Proof.
  intros [p r np md pf pfu rsp sg td vmp vp ex] [|]; cbv zeta;
    repeat split; reflexivity.
Qed.

(** ** InitialLag and TimeBeforeMajorGrowth *)

(** Case analysis on the results of the monadic steps in the hypotheses. *)
Ltac split_binds :=
  repeat match goal with
         | H : Ok _ = Ok _ |- _ => injection H as H; subst
         | H : Exc _ = Ok _ |- _ => discriminate H
         | H : zip_with _ (_ :: _) [] = Ok _ |- _ => simpl in H; discriminate H
         | H : zip_with _ [] (_ :: _) = Ok _ |- _ => simpl in H; discriminate H
         | H : zip_with _ (_ :: _) (_ :: _) = Ok _ |- _ => simpl in H
         | H : context [bind ?m _] |- _ =>
             let E := fresh "E" in destruct m eqn:E; simpl in H
         | H : context [match ?l with [] => _ | _ :: _ => _ end] |- _ =>
             is_var l; destruct l; simpl in H
         end.

Lemma lag_array_spec : forall fs fi is ii out,
  lag_array fs fi is ii = Ok out ->
  out = map (fun x => crossing_time (fst x) (fst (snd x)) (fst (snd (snd x)))
                                    (snd (snd (snd x))))
            (combine fs (combine fi (combine is ii))).
Proof.
  induction fs as [|a fs IH]; intros [|b fi] [|c is] [|d ii] out H;
    unfold lag_array in H; simpl in H; split_binds; try reflexivity.
  simpl; f_equal. apply IH. unfold lag_array.
  repeat match goal with E : ?m = Ok _ |- context [?m] => rewrite E; simpl end.
  reflexivity.
Qed.

Lemma crossing_time_nan_or_nonneg : forall a b c d,
  nan_or_nonneg (crossing_time a b c d).
Proof.
  intros a b c d; unfold crossing_time.
  destruct (fl_div (fl_sub d b) (fl_sub a c)) as [| | |q] eqn:E; simpl.
  all: try (left; reflexivity).
  all: try (right; left; reflexivity).
  all: try (destruct (negb (Qle_bool 0 q)) eqn:Hq; [left; reflexivity|]).
  all: try (right; right; exists q; split; [reflexivity|];
            apply negb_false_iff in Hq; apply Qle_bool_iff; exact Hq).
Qed.

(** C4: wherever InitialLag or TimeBeforeMajorGrowth is computed, each
    cell's value is the crossing time
    [(impulse_intercept - flat_intercept) / (flat_slope - impulse_slope)]
    of the cell's flat line (first Flat segment) and impulse line (the
    segment at the cell's impulse index), a negative crossing time being
    replaced by NaN; so every value is NaN or non-negative ([+inf]
    included). *)
Theorem lag_meta_phenotypes_crossing_time : forall plate out,
  (initial_lag plate = Ok out \/ time_before_major_growth plate = Ok out) ->
  Forall nan_or_nonneg out /\
  exists fs fi ids is ii,
    filter_plate_custom_filter Flat LinearModelSlope non_empty (select_at 0)
      plate = Ok fs /\
    filter_plate_custom_filter Flat LinearModelIntercept non_empty (select_at 0)
      plate = Ok fi /\
    filter_plate_on_phase_id plate ids LinearModelSlope = Ok is /\
    filter_plate_on_phase_id plate ids LinearModelIntercept = Ok ii /\
    out = map (fun x => crossing_time (fst x) (fst (snd x)) (fst (snd (snd x)))
                                      (snd (snd (snd x))))
              (combine fs (combine fi (combine is ii))).
Proof.
  intros plate out H.
  assert (Hex : exists fs fi ids is ii,
    filter_plate_custom_filter Flat LinearModelSlope non_empty (select_at 0)
      plate = Ok fs /\
    filter_plate_custom_filter Flat LinearModelIntercept non_empty (select_at 0)
      plate = Ok fi /\
    filter_plate_on_phase_id plate ids LinearModelSlope = Ok is /\
    filter_plate_on_phase_id plate ids LinearModelIntercept = Ok ii /\
    lag_array fs fi is ii = Ok out).
  { destruct H as [H | H];
      [unfold initial_lag in H | unfold time_before_major_growth in H];
      destruct (filter_plate_custom_filter Flat LinearModelSlope _ _ plate)
        as [fs|] eqn:E1; try discriminate; simpl in H;
      destruct (filter_plate_custom_filter Flat LinearModelIntercept _ _ plate)
        as [fi|] eqn:E2; try discriminate; simpl in H;
      [destruct (get_phase_id plate [Flat; Impulse]) as [ids|] eqn:E3
      | destruct (mapM major_impulse_index_ma plate) as [ids|] eqn:E3];
      try discriminate; simpl in H;
      destruct (filter_plate_on_phase_id plate ids LinearModelSlope)
        as [is|] eqn:E4; try discriminate; simpl in H;
      destruct (filter_plate_on_phase_id plate ids LinearModelIntercept)
        as [ii|] eqn:E5; try discriminate; simpl in H;
      exists fs, fi, ids, is, ii; repeat split; assumption. }
  destruct Hex as (fs & fi & ids & is & ii & E1 & E2 & E3 & E4 & E5).
  apply lag_array_spec in E5.
  split.
  - subst out. apply Forall_forall. intros x Hx.
    apply in_map_iff in Hx. destruct Hx as [y [<- _]].
    apply crossing_time_nan_or_nonneg.
  - exists fs, fi, ids, is, ii. repeat split; assumption.
Qed.

Lemma lag_meta_phenotypes_crossing_time_witness :
  initial_lag [curve_F_A_I] = Ok [Fin 3] /\ Forall nan_or_nonneg [Fin 3].
Proof.
  split.
  - vm_compute. reflexivity.
  - refine (proj1 (lag_meta_phenotypes_crossing_time [curve_F_A_I] [Fin 3] _)).
    left. vm_compute. reflexivity.
Defined.

(** ** Yield-contribution rankings *)

Lemma mapM_nth : forall {A B} (f : A -> res B) l out i a,
  mapM f l = Ok out -> nth_error l i = Some a ->
  exists b, f a = Ok b /\ nth_error out i = Some b.
Proof.
  intros A B f l; induction l as [|x l IH]; intros out i a H Hi.
  - destruct i; discriminate.
  - simpl in H. destruct (f x) as [y|] eqn:Ey; try discriminate; simpl in H.
    destruct (mapM f l) as [ys|] eqn:Eys; try discriminate; simpl in H.
    injection H as <-. destruct i as [|i]; simpl in Hi.
    + injection Hi as <-. exists y; auto.
    + destruct (IH ys i a eq_refl Hi) as [b [Hb Hn]]. exists b; auto.
Qed.

(** A [filter_plate_custom_filter] array holds, at each cell, the value
    computed from that cell alone. *)
Lemma filter_plate_custom_filter_nth : forall phase measure req sel plate out i pv,
  filter_plate_custom_filter phase measure req sel plate = Ok out ->
  nth_error plate i = Some pv ->
  exists x, custom_filter_value phase measure req sel pv = Ok x /\
            nth_error out i = Some x.
Proof.
  intros phase measure req sel plate out i pv H Hi.
  unfold filter_plate_custom_filter in H.
  destruct (mapM _ plate) as [objs|] eqn:E; try discriminate; simpl in H.
  destruct (mapM_nth _ _ _ _ _ E Hi) as [o [Ho Hno]].
  destruct (mapM_nth _ _ _ _ _ H Hno) as [x [Hx Hnx]].
  exists x. split; [|exact Hnx].
  unfold custom_filter_value. rewrite Ho. exact Hx.
Qed.

Lemma perm_1_3_2_cases : forall q1 q2 q3 : Q,
  Permutation [q1; q2; q3] [1; 3; 2]%Q ->
  (q1 = 1 /\ q2 = 3 /\ q3 = 2)%Q \/ (q1 = 1 /\ q2 = 2 /\ q3 = 3)%Q \/
  (q1 = 3 /\ q2 = 1 /\ q3 = 2)%Q \/ (q1 = 3 /\ q2 = 2 /\ q3 = 1)%Q \/
  (q1 = 2 /\ q2 = 1 /\ q3 = 3)%Q \/ (q1 = 2 /\ q2 = 3 /\ q3 = 1)%Q.
Proof.
  intros q1 q2 q3 H.
  assert (Hn : NoDup [q1; q2; q3]).
  { apply (Permutation_NoDup (Permutation_sym H)).
    repeat constructor; simpl; intuition discriminate. }
  assert (H1 : In q1 [1; 3; 2]%Q) by (apply (Permutation_in q1 H); simpl; auto).
  assert (H2 : In q2 [1; 3; 2]%Q) by (apply (Permutation_in q2 H); simpl; auto).
  assert (H3 : In q3 [1; 3; 2]%Q) by (apply (Permutation_in q3 H); simpl; auto).
  simpl in H1, H2, H3.
  destruct H1 as [<-|[<-|[<-|[]]]]; destruct H2 as [<-|[<-|[<-|[]]]];
    destruct H3 as [<-|[<-|[<-|[]]]];
    try (inversion Hn as [|x l Hx Hn']; subst;
         inversion Hn' as [|y l' Hy _]; subst; simpl in Hx, Hy; tauto).
  all: intuition.
Qed.

Lemma getitem_dict_key : forall d k v,
  dict_lookup d k = Some v -> getitem (PDict d) (PKey k) = Ok v.
Proof. intros d k v H; simpl; rewrite H; reflexivity. Qed.

Lemma major_and_first_minor_yield_cell : forall pv entries k1 k2 k3 q1 q2 q3,
  py_iter pv = Ok entries ->
  select_phase_dicts Impulse entries = Ok [PDict k1; PDict k2; PDict k3] ->
  dict_lookup k1 PopulationDoublings = Some (PFloat (Fin q1)) ->
  dict_lookup k2 PopulationDoublings = Some (PFloat (Fin q2)) ->
  dict_lookup k3 PopulationDoublings = Some (PFloat (Fin q3)) ->
  Permutation [q1; q2; q3] [1; 3; 2]%Q ->
  custom_filter_value Impulse PopulationDoublings (at_least 1)
    (select_ranked (-1)) pv = Ok (Fin 3) /\
  custom_filter_value Impulse PopulationDoublings (at_least 2)
    (select_ranked (-2)) pv = Ok (Fin 2).
Proof.
  intros pv entries k1 k2 k3 q1 q2 q3 Hit Hsel H1 H2 H3 Hp.
  destruct (perm_1_3_2_cases q1 q2 q3 Hp)
    as [(-> & -> & ->)|[(-> & -> & ->)|[(-> & -> & ->)|
        [(-> & -> & ->)|[(-> & -> & ->)|(-> & -> & ->)]]]]];
    split; unfold custom_filter_value, custom_filter_cell;
    rewrite Hit, bind_Ok, Hsel, bind_Ok;
    unfold select_ranked, mapM, rank_value;
    rewrite (getitem_dict_key _ _ _ H1), (getitem_dict_key _ _ _ H2),
      (getitem_dict_key _ _ _ H3);
    simpl; rewrite ?H1, ?H2, ?H3; reflexivity.
Qed.

(** C2: in a cell whose PhaseVector has exactly three Impulse segments,
    with PopulationDoublings 1.0, 3.0 and 2.0 in any order,
    MajorImpulseYieldContribution is 3.0 and
    FirstMinorImpulseYieldContribution is 2.0: the cell's own value is
    computed without error and it is the cell's entry of every array
    [extract_phenotypes] returns for these kinds. *)
Theorem yield_contribution_ranks_three_impulses :
  forall np_arctan2 np_pi np_log2 plate low when i pv entries k1 k2 k3 q1 q2 q3,
  nth_error plate i = Some pv ->
  py_iter pv = Ok entries ->
  select_phase_dicts Impulse entries = Ok [PDict k1; PDict k2; PDict k3] ->
  dict_lookup k1 PopulationDoublings = Some (PFloat (Fin q1)) ->
  dict_lookup k2 PopulationDoublings = Some (PFloat (Fin q2)) ->
  dict_lookup k3 PopulationDoublings = Some (PFloat (Fin q3)) ->
  Permutation [q1; q2; q3] [1; 3; 2]%Q ->
  extract_cell np_arctan2 np_pi np_log2 MajorImpulseYieldContribution
    (pv, (NaN, NaN)) = Ok (Fin 3) /\
  extract_cell np_arctan2 np_pi np_log2 FirstMinorImpulseYieldContribution
    (pv, (NaN, NaN)) = Ok (Fin 2) /\
  (forall out, extract_phenotypes np_arctan2 np_pi np_log2 plate
                 MajorImpulseYieldContribution low when = Ok out ->
               nth_error out i = Some (Fin 3)) /\
  (forall out, extract_phenotypes np_arctan2 np_pi np_log2 plate
                 FirstMinorImpulseYieldContribution low when = Ok out ->
               nth_error out i = Some (Fin 2)).
Proof.
  intros np_arctan2 np_pi np_log2 plate low when i pv entries k1 k2 k3 q1 q2 q3
    Hi Hit Hsel H1 H2 H3 Hp.
  destruct (major_and_first_minor_yield_cell pv entries k1 k2 k3 q1 q2 q3
              Hit Hsel H1 H2 H3 Hp) as [Hmaj Hmin].
  split; [exact Hmaj|]. split; [exact Hmin|]. split.
  - intros out Hout. simpl in Hout.
    destruct (filter_plate_custom_filter_nth _ _ _ _ _ _ _ _ Hout Hi)
      as [x [Hx Hn]].
    rewrite Hmaj in Hx. injection Hx as <-. exact Hn.
  - intros out Hout. simpl in Hout.
    destruct (filter_plate_custom_filter_nth _ _ _ _ _ _ _ _ Hout Hi)
      as [x [Hx Hn]].
    rewrite Hmin in Hx. injection Hx as <-. exact Hn.
Qed.

Lemma yield_contribution_ranks_three_impulses_witness :
  extract_cell (fun _ _ => NaN) NaN (fun x => x) MajorImpulseYieldContribution
    (curve_I1_F_I3_I2, (NaN, NaN)) = Ok (Fin 3) /\
  extract_cell (fun _ _ => NaN) NaN (fun x => x)
    FirstMinorImpulseYieldContribution (curve_I1_F_I3_I2, (NaN, NaN))
  = Ok (Fin 2) /\
  (forall out, extract_phenotypes (fun _ _ => NaN) NaN (fun x => x)
                 [curve_I1_F_I3_I2] MajorImpulseYieldContribution [] [] = Ok out ->
               nth_error out 0 = Some (Fin 3)) /\
  (forall out, extract_phenotypes (fun _ _ => NaN) NaN (fun x => x)
                 [curve_I1_F_I3_I2] FirstMinorImpulseYieldContribution [] []
               = Ok out ->
               nth_error out 0 = Some (Fin 2)).
Proof.
  eapply (yield_contribution_ranks_three_impulses (fun _ _ => NaN) NaN (fun x => x)
            [curve_I1_F_I3_I2] [] [] 0 curve_I1_F_I3_I2);
    try reflexivity.
Defined.

(** ** ModalitiesAlternativeModel *)

Lemma phase_eqb_true : forall a b, phase_eqb a b = true -> a = b.
Proof. intros [] []; simpl; congruence. Qed.

Lemma find_index_nth_error : forall p ts k,
  find_index p ts = Some k -> nth_error ts k = Some p.
Proof.
  intros p ts; induction ts as [|t ts IH]; intros k H; simpl in H.
  - discriminate.
  - destruct (phase_eqb t p) eqn:E.
    + injection H as <-. simpl. f_equal. apply phase_eqb_true, E.
    + destruct (find_index p ts) as [k'|] eqn:E'; simpl in H; try discriminate.
      injection H as <-. simpl. apply IH. reflexivity.
Qed.

Lemma positions_cons : forall s p t ts,
  positions s p (t :: ts) =
  if phase_eqb t p then s :: positions (S s) p ts else positions (S s) p ts.
Proof.
  intros s p t ts. unfold positions. simpl.
  destruct (phase_eqb t p); reflexivity.
Qed.

Lemma positions_first : forall p ts s,
  hd_error (positions s p ts) = option_map (Nat.add s) (find_index p ts).
Proof.
  intros p ts; induction ts as [|t ts IH]; intros s.
  - reflexivity.
  - rewrite positions_cons. simpl.
    destruct (phase_eqb t p).
    + simpl. f_equal. lia.
    + rewrite IH. destruct (find_index p ts); simpl; [f_equal; lia | reflexivity].
Qed.

Lemma hd_error_app_single : forall (l : list nat) x,
  hd_error (l ++ [x]) = match hd_error l with Some y => Some y | None => Some x end.
Proof. intros [|y l] x; reflexivity. Qed.

Lemma positions_last : forall p ts s,
  hd_error (rev (positions s p ts)) = option_map (Nat.add s) (last_index p ts).
Proof.
  intros p ts; induction ts as [|t ts IH]; intros s.
  - reflexivity.
  - rewrite positions_cons. simpl.
    assert (Hts : hd_error (rev (positions (S s) p ts))
                  = option_map (Nat.add (S s)) (last_index p ts)) by apply IH.
    destruct (last_index p ts) as [k|] eqn:Ek.
    + destruct (phase_eqb t p); simpl;
        rewrite ?hd_error_app_single, Hts; simpl; f_equal; lia.
    + destruct (phase_eqb t p); simpl;
        rewrite ?hd_error_app_single, Hts; simpl; f_equal; lia.
Qed.

Lemma py_iter_phase_vector : forall segs,
  py_iter (phase_vector segs)
  = Ok (map (fun s => PTuple [PPhase (fst s); snd s]) segs).
Proof. reflexivity. Qed.

Lemma mapM_unpack2_phase_vector : forall segs : list (CurvePhases * pyobj),
  mapM unpack2 (map (fun s => PTuple [PPhase (fst s); snd s]) segs)
  = Ok (map (fun s => (PPhase (fst s), snd s)) segs).
Proof.
  induction segs as [|[t d] segs IH]; [reflexivity|].
  simpl. rewrite IH. reflexivity.
Qed.

Lemma phase_finder_phase_vector : forall segs p,
  phase_finder (phase_vector segs) p = Ok (positions 0 p (map fst segs)).
Proof.
  intros segs p. unfold phase_finder.
  rewrite py_iter_phase_vector, bind_Ok, mapM_unpack2_phase_vector, bind_Ok.
  simpl. f_equal. unfold positions.
  rewrite !length_map. generalize 0.
  induction segs as [|[t d] segs IH]; intros s; [reflexivity|].
  simpl. destruct (phase_eqb t p); simpl; rewrite IH; reflexivity.
Qed.

Lemma mapM_first_phase_vector : forall segs : list (CurvePhases * pyobj),
  mapM (fun e => getitem e (PInt 0))
    (map (fun s => PTuple [PPhase (fst s); snd s]) segs)
  = Ok (map (fun s => PPhase (fst s)) segs).
Proof.
  induction segs as [|[t d] segs IH]; [reflexivity|].
  simpl. rewrite IH. reflexivity.
Qed.

Lemma count_phase_map : forall (segs : list (CurvePhases * pyobj)) p,
  length (filter (fun t => py_eq t (PPhase p)) (map (fun s => PPhase (fst s)) segs))
  = length (filter (fun t => phase_eqb t p) (map fst segs)).
Proof.
  induction segs as [|[t d] segs IH]; intros p; [reflexivity|].
  simpl. destruct (phase_eqb t p); simpl; rewrite IH; reflexivity.
Qed.

Lemma window_empty : forall (f : CurvePhases -> bool) ts s a r,
  r <= s ->
  filter (fun it => Nat.leb a (fst it) && Nat.ltb (fst it) r && f (snd it))
    (combine (seq s (length ts)) ts) = [].
Proof.
  intros f ts; induction ts as [|t ts IH]; intros s a r Hr; [reflexivity|].
  simpl. replace (Nat.ltb s r) with false by (symmetry; apply Nat.ltb_ge; lia).
  rewrite andb_false_r. simpl. apply IH. lia.
Qed.

(** Counting the elements of a slice [ts[a:r]] is counting the indexed
    elements with [a <= i < r]. *)
Lemma window_count : forall (f : CurvePhases -> bool) ts s a r,
  s <= a ->
  length (filter f (firstn (r - a) (skipn (a - s) ts))) =
  length (filter (fun it => Nat.leb a (fst it) && Nat.ltb (fst it) r && f (snd it))
            (combine (seq s (length ts)) ts)).
Proof.
  intros f ts; induction ts as [|t ts IH]; intros s a r Hsa.
  - rewrite skipn_nil, firstn_nil. reflexivity.
  - simpl combine. simpl filter.
    destruct (Nat.eq_dec a s) as [-> | Hne].
    + rewrite Nat.sub_diag. simpl skipn. rewrite Nat.leb_refl. simpl.
      destruct (r - s) as [|k] eqn:Er.
      * simpl. replace (Nat.ltb s r) with false by (symmetry; apply Nat.ltb_ge; lia).
        simpl. rewrite window_empty by lia. reflexivity.
      * replace (Nat.ltb s r) with true by (symmetry; apply Nat.ltb_lt; lia).
        simpl.
        assert (Htl : length (filter f (firstn k ts)) =
          length (filter (fun it => Nat.leb s (fst it) && Nat.ltb (fst it) r
                                    && f (snd it))
                    (combine (seq (S s) (length ts)) ts))).
        { replace k with (r - S s) by lia.
          replace ts with (skipn (S s - S s) ts) at 1
            by (rewrite Nat.sub_diag; reflexivity).
          rewrite (IH (S s) (S s) r (le_n _)).
          f_equal. apply filter_ext_in. intros [i x] Hin.
          apply in_combine_l, in_seq in Hin. simpl.
          destruct i as [|i]; [lia|].
          assert (H1 : Nat.leb s i = true) by (apply Nat.leb_le; lia).
          assert (H2 : Nat.leb s (S i) = true) by (apply Nat.leb_le; lia).
          simpl. rewrite H1, H2. reflexivity. }
        destruct (f t); simpl; rewrite Htl; reflexivity.
    + replace (Nat.leb a s) with false by (symmetry; apply Nat.leb_gt; lia).
      simpl.
      replace (a - s) with (S (a - S s)) by lia. simpl skipn.
      apply IH. lia.
Qed.

Lemma skipn_nth_error : forall {A} (l : list A) n x,
  nth_error l n = Some x -> skipn n l = x :: skipn (S n) l.
Proof.
  intros A l; induction l as [|y l IH]; intros n x H.
  - destruct n; discriminate.
  - destruct n as [|n]; simpl in H.
    + injection H as <-. reflexivity.
    + simpl. apply IH. exact H.
Qed.

Lemma inner_impulse_counter_cell : forall segs,
  exists z, py_inner_impulse_counter (phase_vector segs) = Ok z /\
            ma_count z = nested_impulses (map fst segs).
Proof.
  intros segs. set (ts := map fst segs).
  unfold py_inner_impulse_counter, nested_impulses.
  rewrite phase_finder_phase_vector, bind_Ok. fold ts.
  pose proof (positions_first GrowthAcceleration ts 0) as Hacc.
  destruct (positions 0 GrowthAcceleration ts) as [|a0 acc] eqn:Ea;
    destruct (find_index GrowthAcceleration ts) as [a|] eqn:Efa;
    simpl in Hacc; try discriminate.
  - exists (-1)%Z. split; reflexivity.
  - injection Hacc as <-.
    rewrite phase_finder_phase_vector, bind_Ok. fold ts.
    pose proof (positions_last GrowthRetardation ts 0) as Hret.
    destruct (rev (positions 0 GrowthRetardation ts)) as [|r ret] eqn:Er;
      destruct (last_index GrowthRetardation ts) as [r'|] eqn:Elr;
      simpl in Hret; try discriminate.
    + exists (-1)%Z. split; reflexivity.
    + injection Hret as <-.
      unfold py_slice, phase_vector. rewrite bind_Ok.
      unfold py_impulse_counter, py_phase_type_counter. simpl py_iter.
      rewrite bind_Ok, skipn_map, firstn_map, mapM_first_phase_vector, bind_Ok.
      simpl catch_type_error.
      eexists; split; [reflexivity|].
      unfold ma_count.
      replace (Z.ltb _ 0) with false by (symmetry; apply Z.ltb_ge; lia).
      f_equal. f_equal. f_equal.
      rewrite count_phase_map, <- firstn_map, <- skipn_map. fold ts.
      (* the slice starts at the first Acceleration, which is no Impulse *)
      pose proof (find_index_nth_error _ _ _ Efa) as Hnth.
      rewrite (skipn_nth_error _ _ _ Hnth).
      transitivity (length (filter (fun t => phase_eqb t Impulse)
                              (firstn (r - S a0) (skipn (S a0 - 0) ts)))).
      { destruct (r - a0) as [|k] eqn:Ek.
        - replace (r - S a0) with 0 by lia. reflexivity.
        - replace (r - S a0) with k by lia. reflexivity. }
      rewrite (window_count (fun t => phase_eqb t Impulse) ts 0 (S a0) r) by lia.
      reflexivity.
Qed.

(** C6: on a plate of well-formed PhaseVectors, ModalitiesAlternativeModel
    gives each cell the number of its Impulse segments whose index lies
    strictly between the first Acceleration and the last Retardation, and
    NaN when the cell has no Acceleration or no Retardation segment. *)
Theorem modalities_alternative_model_nested_impulses :
  forall np_arctan2 np_pi np_log2 (plate : list (list (CurvePhases * pyobj)))
         low when,
  extract_phenotypes np_arctan2 np_pi np_log2 (map phase_vector plate)
    ModalitiesAlternativeModel low when
  = Ok (map (fun segs => nested_impulses (map fst segs)) plate).
Proof.
  intros np_arctan2 np_pi np_log2 plate low when. simpl.
  unfold count_plate.
  induction plate as [|segs plate IH]; [reflexivity|].
  simpl. destruct (inner_impulse_counter_cell segs) as [z [Hz Hm]].
  rewrite Hz, bind_Ok.
  destruct (mapM py_inner_impulse_counter (map phase_vector plate)) as [zs|e];
    simpl in IH |- *; [|discriminate].
  injection IH as IH. rewrite Hm, IH. reflexivity.
Qed.

(** ** The impulse InitialLag uses *)

Lemma zip_first_phase_vector : forall segs,
  segs <> [] ->
  zip_first (phase_vector segs) = Ok (map PPhase (map fst segs)).
Proof.
  intros segs Hne. unfold zip_first.
  rewrite py_iter_phase_vector, bind_Ok.
  assert (Hc : mapM py_iter (map (fun s => PTuple [PPhase (fst s); snd s]) segs)
               = Ok (map (fun s => [PPhase (fst s); snd s]) segs)).
  { clear Hne. induction segs as [|s segs IH]; [reflexivity|].
    simpl. rewrite IH. reflexivity. }
  rewrite Hc, bind_Ok.
  destruct segs as [|s segs]; [congruence|].
  simpl. rewrite map_map.
  assert (Hx : existsb (fun c => match c with [] => true | _ => false end)
                 (map (fun s => [PPhase (fst s); snd s]) segs) = false).
  { clear. induction segs as [|s segs IH]; [reflexivity|]. exact IH. }
  rewrite Hx, map_map. reflexivity.
Qed.

Lemma scan_phase_id_impulse : forall ts id,
  scan_phase_id [Flat; Impulse] 1 id (map PPhase ts) =
  match find_index Impulse ts with
  | Some k => Z.of_nat (id + k)
  | None => (-1)%Z
  end.
Proof.
  induction ts as [|t ts IH]; intros id; [reflexivity|].
  simpl. destruct (phase_eqb t Impulse).
  - f_equal. lia.
  - rewrite IH. destruct (find_index Impulse ts); simpl; [f_equal; lia | reflexivity].
Qed.

Lemma scan_phase_id_flat_impulse : forall ts id,
  scan_phase_id [Flat; Impulse] 0 id (map PPhase ts) =
  match first_impulse_after_first_flat ts with
  | Some j => Z.of_nat (id + j)
  | None => (-1)%Z
  end.
Proof.
  unfold first_impulse_after_first_flat.
  induction ts as [|t ts IH]; intros id; [reflexivity|].
  simpl. destruct (phase_eqb t Flat).
  - rewrite scan_phase_id_impulse. simpl.
    destruct (find_index Impulse ts); simpl; [f_equal; lia | reflexivity].
  - rewrite IH. destruct (find_index Flat ts) as [f|]; simpl; [|reflexivity].
    destruct (find_index Impulse _); simpl; [|reflexivity].
    change (Z.pos (Pos.of_succ_nat ?n)) with (Z.of_nat (S n)). f_equal. lia.
Qed.

Lemma get_phase_id_cell_flat_impulse : forall segs,
  segs <> [] ->
  get_phase_id_cell [Flat; Impulse] (phase_vector segs) =
  Ok (match first_impulse_after_first_flat (map fst segs) with
      | Some j => Z.of_nat j
      | None => (-1)%Z
      end).
Proof.
  intros segs Hne. unfold get_phase_id_cell.
  rewrite (zip_first_phase_vector segs Hne), bind_Ok.
  rewrite scan_phase_id_flat_impulse. reflexivity.
Qed.

(** ** [extract_phenotypes] cell by cell *)

Lemma mapM_cons : forall {A B} (f : A -> res B) x xs,
  mapM f (x :: xs) = let* y := f x in let* ys := mapM f xs in Ok (y :: ys).
Proof. reflexivity. Qed.

Lemma to_option_Ok : forall {A} (r r' : res A) out,
  to_option r = to_option r' -> r = Ok out -> r' = Ok out.
Proof. intros A r [a|e] out H ->; simpl in H; congruence. Qed.

(** Does [m] hold no monadic step of its own? *)
Ltac atomic_res m :=
  lazymatch m with
  | context [bind _ _] => fail
  | context [match _ with Ok _ => _ | Exc _ => _ end] => fail
  | _ => idtac
  end.

(** Case analysis on the innermost monadic steps of the goal, then the
    induction hypothesis is specialised to the cases. *)
Ltac crush_res :=
  repeat (simpl in *;
          match goal with
          | |- context [bind ?m _] =>
              atomic_res m; let E := fresh "E" in destruct m eqn:E
          | |- context [match ?m with Ok _ => _ | Exc _ => _ end] =>
              atomic_res m; let E := fresh "E" in destruct m eqn:E
          | |- context [match ?l with [] => _ | _ :: _ => _ end] =>
              is_var l; destruct l
          end);
  repeat match goal with
         | E : ?m = _, IH : context [?m] |- _ => rewrite E in IH
         end;
  simpl in *; try congruence.

(** Every kind of [extract_phenotypes] succeeds exactly when the cell
    function [extract_cell] succeeds on every cell, with the same values. *)
Lemma extract_phenotypes_cells :
  forall np_arctan2 np_pi np_log2 kind (cs : list cell),
  to_option (extract_phenotypes np_arctan2 np_pi np_log2 (map fst cs) kind
               (map (fun c => fst (snd c)) cs) (map (fun c => snd (snd c)) cs)) =
  to_option (mapM (extract_cell np_arctan2 np_pi np_log2 kind) cs).
Proof.
  intros np_arctan2 np_pi np_log2 kind cs.
  induction cs as [|c cs IH]; [destruct kind; reflexivity|].
  rewrite mapM_cons. unfold extract_cell at 1.
  destruct kind; cbv beta iota zeta;
    unfold extract_phenotypes, initial_lag, time_before_major_growth,
      filter_plate_custom_filter, get_phase_id, filter_plate_on_phase_id,
      lag_array, count_plate in *;
    unfold lag_cell, flat_impulse_id, custom_filter_value, on_phase_id_value,
      crossing_time;
    crush_res.
Qed.

Lemma cells_of_maps : forall plate low when,
  length low = length plate -> length when = length plate ->
  map fst (cells_of plate low when) = plate /\
  map (fun c => fst (snd c)) (cells_of plate low when) = low /\
  map (fun c => snd (snd c)) (cells_of plate low when) = when.
Proof.
  unfold cells_of.
  induction plate as [|pv plate IH]; intros [|l low] [|w when] Hl Hw;
    simpl in *; try discriminate; [repeat split|].
  destruct (IH low when) as (H1 & H2 & H3); try lia.
  rewrite H1, H2, H3. repeat split.
Qed.

Lemma extract_phenotypes_cells_of :
  forall np_arctan2 np_pi np_log2 kind plate low when,
  length low = length plate -> length when = length plate ->
  to_option (extract_phenotypes np_arctan2 np_pi np_log2 plate kind low when) =
  to_option (mapM (extract_cell np_arctan2 np_pi np_log2 kind)
               (cells_of plate low when)).
Proof.
  intros np_arctan2 np_pi np_log2 kind plate low when Hl Hw.
  destruct (cells_of_maps plate low when Hl Hw) as (H1 & H2 & H3).
  rewrite <- (extract_phenotypes_cells np_arctan2 np_pi np_log2 kind).
  rewrite H1, H2, H3. reflexivity.
Qed.

Lemma extract_cell_non_iterable : forall np_arctan2 np_pi np_log2 kind c,
  py_iter (fst c) = Exc TypeError ->
  extract_cell np_arctan2 np_pi np_log2 kind c = Ok (non_iterable_value kind).
Proof.
  intros np_arctan2 np_pi np_log2 kind [pv [lp lw]] H.
  simpl in H. destruct pv; try discriminate H;
    destruct kind; try reflexivity; simpl; destruct lw; reflexivity.
Qed.

Lemma length_replace : forall {A} (l : list A) i x,
  i < length l -> length (firstn i l ++ x :: skipn (S i) l) = length l.
Proof.
  intros A l; induction l as [|y l IH]; intros i x Hi; simpl in Hi; [lia|].
  destruct i as [|i]; simpl; [reflexivity|].
  rewrite IH by lia. reflexivity.
Qed.

Lemma mapM_replace : forall {A B} (f : A -> res B) l out i x y,
  mapM f l = Ok out -> i < length l -> f x = Ok y ->
  mapM f (firstn i l ++ x :: skipn (S i) l) = Ok (firstn i out ++ y :: skipn (S i) out).
Proof.
  intros A B f l; induction l as [|a l IH]; intros out i x y H Hi Hx;
    simpl in Hi; [lia|].
  simpl in H. destruct (f a) as [b|] eqn:Ea; try discriminate; simpl in H.
  destruct (mapM f l) as [bs|] eqn:Ebs; try discriminate; simpl in H.
  injection H as <-.
  destruct i as [|i].
  - simpl. rewrite Hx, Ebs. reflexivity.
  - change (firstn (S i) (a :: l) ++ x :: skipn (S (S i)) (a :: l))
      with (a :: (firstn i l ++ x :: skipn (S i) l)).
    rewrite mapM_cons, Ea, bind_Ok.
    rewrite (IH bs i x y eq_refl) by (assumption || lia).
    reflexivity.
Qed.

Lemma cells_of_replace : forall plate low when i pv',
  length low = length plate -> length when = length plate -> i < length plate ->
  cells_of (firstn i plate ++ pv' :: skipn (S i) plate) low when =
  firstn i (cells_of plate low when) ++ (pv', (nth i low NaN, nth i when NaN))
    :: skipn (S i) (cells_of plate low when).
Proof.
  unfold cells_of.
  induction plate as [|pv plate IH]; intros [|l low] [|w when] i pv' Hl Hw Hi;
    simpl in *; try discriminate; try lia.
  destruct i as [|i]; simpl; [reflexivity|].
  rewrite IH by lia. reflexivity.
Qed.

Lemma select_phase_dicts_wrong_arity : forall phase pre ys post,
  Forall (fun e => exists t d, e = PTuple [t; d]) pre -> length ys <> 2 ->
  select_phase_dicts phase (pre ++ PTuple ys :: post) = Exc ValueError.
Proof.
  intros phase pre ys post Hpre Hys. induction Hpre as [|e pre He Hpre IH].
  - simpl. unfold unpack2. simpl.
    destruct ys as [|y1 [|y2 [|y3 ys]]]; simpl in *; try reflexivity; lia.
  - destruct He as (t & d & ->). simpl. rewrite IH. reflexivity.
Qed.

Lemma mapM_raises_after_prefix : forall {A B} (f : A -> res B) l i x e out,
  nth_error l i = Some x -> f x = Exc e -> mapM f (firstn i l) = Ok out ->
  mapM f l = Exc e.
Proof.
  intros A B f l. induction l as [|y l IH]; intros i x e out Hn Hx Hp;
    [destruct i; discriminate|].
  destruct i as [|i]; simpl in Hn.
  - injection Hn as ->. simpl. rewrite Hx. reflexivity.
  - simpl in Hp. simpl. destruct (f y) as [b|e'] eqn:Ey; simpl in Hp |- *;
      [|discriminate].
    destruct (mapM f (firstn i l)) as [bs|e'] eqn:Ebs; simpl in Hp;
      [|discriminate].
    rewrite (IH i x e bs Hn Hx Ebs). reflexivity.
Qed.

Lemma filter_plate_custom_filter_wrong_arity :
  forall phase measure req sel plate i pre ys post,
  nth_error plate i = Some (PTuple (pre ++ PTuple ys :: post)) ->
  Forall (fun e => exists t d, e = PTuple [t; d]) pre -> length ys <> 2 ->
  (exists out, filter_plate_custom_filter phase measure req sel (firstn i plate)
               = Ok out) ->
  filter_plate_custom_filter phase measure req sel plate = Exc ValueError.
Proof.
  intros phase measure req sel plate i pre ys post Hn Hpre Hys [out Hout].
  unfold filter_plate_custom_filter in *.
  destruct (mapM (custom_filter_cell phase measure req sel) (firstn i plate))
    as [objs|e] eqn:Eo; simpl in Hout; [|discriminate].
  assert (Hc : custom_filter_cell phase measure req sel
                 (PTuple (pre ++ PTuple ys :: post)) = Exc ValueError).
  { unfold custom_filter_cell. simpl.
    rewrite (select_phase_dicts_wrong_arity phase pre ys post Hpre Hys).
    reflexivity. }
  rewrite (mapM_raises_after_prefix _ _ _ _ _ _ Hn Hc Eo). reflexivity.
Qed.

(** C8, counterexample: a None PhaseVector yields +inf, not NaN, for
    MajorImpulseFlankAsymmetry; and a PhaseVector entry of the wrong arity
    makes the whole MajorImpulseYieldContribution extraction raise
    [ValueError] (the unpacking [for t, d in phenotype_vector] is outside
    the [except TypeError]). *)
Lemma malformed_cells_not_nan :
  extract_phenotypes (fun _ _ => NaN) NaN (fun x => x) [PNone]
    MajorImpulseFlankAsymmetry [NaN] [NaN] = Ok [PInf] /\
  extract_phenotypes (fun _ _ => NaN) NaN (fun x => x)
    [PTuple [PTuple [PPhase Impulse]]; curve_I2]
    MajorImpulseYieldContribution [NaN; NaN] [NaN; NaN] = Exc ValueError.
Proof. split; vm_compute; reflexivity. Qed.

(** C8, amended: for every kind, [extract_phenotypes] computes each cell
    from that cell alone (it succeeds exactly when [extract_cell] succeeds
    on every cell, with the same values); a cell whose PhaseVector is not
    iterable (None included) gets NaN (+inf for MajorImpulseFlankAsymmetry)
    without raising, and putting such a value in any cell of a plate whose
    extraction succeeds leaves every other cell's value unchanged. For the
    eight kinds computed by [filter_plate_custom_filter], a cell whose first
    entry that is not a pair is a tuple of another length makes the whole
    extraction raise [ValueError], the cells before it being computable. *)
Theorem extract_phenotypes_non_iterable_cell :
  forall np_arctan2 np_pi np_log2 kind plate low when,
  length low = length plate -> length when = length plate ->
  to_option (extract_phenotypes np_arctan2 np_pi np_log2 plate kind low when) =
  to_option (mapM (extract_cell np_arctan2 np_pi np_log2 kind)
               (cells_of plate low when)) /\
  (forall c, py_iter (fst c) = Exc TypeError ->
     extract_cell np_arctan2 np_pi np_log2 kind c = Ok (non_iterable_value kind)) /\
  (forall i pv' out,
     py_iter pv' = Exc TypeError -> i < length plate ->
     extract_phenotypes np_arctan2 np_pi np_log2 plate kind low when = Ok out ->
     extract_phenotypes np_arctan2 np_pi np_log2
       (firstn i plate ++ pv' :: skipn (S i) plate) kind low when
     = Ok (firstn i out ++ non_iterable_value kind :: skipn (S i) out)) /\
  (In kind [MajorImpulseYieldContribution; FirstMinorImpulseYieldContribution;
           MajorImpulseAveragePopulationDoublingTime;
           FirstMinorImpulseAveragePopulationDoublingTime;
           InitialAccelerationAsymptoteAngle; FinalRetardationAsymptoteAngle;
           InitialAccelerationAsymptoteIntersect;
           FinalRetardationAsymptoteIntersect] ->
   forall i pre ys post,
     nth_error plate i = Some (PTuple (pre ++ PTuple ys :: post)) ->
     Forall (fun e => exists t d, e = PTuple [t; d]) pre -> length ys <> 2 ->
     (exists out, extract_phenotypes np_arctan2 np_pi np_log2 (firstn i plate)
                    kind (firstn i low) (firstn i when) = Ok out) ->
     extract_phenotypes np_arctan2 np_pi np_log2 plate kind low when
     = Exc ValueError).
Proof.
  intros np_arctan2 np_pi np_log2 kind plate low when Hl Hw.
  pose proof (extract_phenotypes_cells_of np_arctan2 np_pi np_log2 kind
                plate low when Hl Hw) as Hcells.
  split; [exact Hcells|]. split; [|split].
  - intros c Hc. apply extract_cell_non_iterable. exact Hc.
  - intros i pv' out Hpv Hi Hout.
    assert (Hm : mapM (extract_cell np_arctan2 np_pi np_log2 kind)
                   (cells_of plate low when) = Ok out)
      by exact (to_option_Ok _ _ _ Hcells Hout).
    assert (Hlen : length (cells_of plate low when) = length plate).
    { unfold cells_of, cell. rewrite !length_combine. lia. }
    pose proof (length_replace plate i pv' Hi) as Hlr.
    apply (to_option_Ok
             (mapM (extract_cell np_arctan2 np_pi np_log2 kind)
                (cells_of (firstn i plate ++ pv' :: skipn (S i) plate) low when))).
    + symmetry. apply extract_phenotypes_cells_of; lia.
    + rewrite cells_of_replace by assumption.
      apply mapM_replace; [exact Hm | lia |].
      apply extract_cell_non_iterable. exact Hpv.
  - intros Hk i pre ys post Hn Hpre Hys Hfirst.
    simpl in Hk.
    destruct Hk as [<-|[<-|[<-|[<-|[<-|[<-|[<-|[<-|[]]]]]]]]];
      exact (filter_plate_custom_filter_wrong_arity _ _ _ _ _ _ _ _ _
               Hn Hpre Hys Hfirst).
Qed.

Lemma extract_phenotypes_non_iterable_cell_witness :
  let kind := MajorImpulseYieldContribution in
  let plate := [curve_I2; PNone] in
  to_option (extract_phenotypes (fun _ _ => NaN) NaN (fun x => x) plate kind
               [NaN; NaN] [NaN; NaN]) =
  to_option (mapM (extract_cell (fun _ _ => NaN) NaN (fun x => x) kind)
               (cells_of plate [NaN; NaN] [NaN; NaN])) /\
  (forall c, py_iter (fst c) = Exc TypeError ->
     extract_cell (fun _ _ => NaN) NaN (fun x => x) kind c
     = Ok (non_iterable_value kind)) /\
  (forall i pv' out,
     py_iter pv' = Exc TypeError -> i < length plate ->
     extract_phenotypes (fun _ _ => NaN) NaN (fun x => x) plate kind
       [NaN; NaN] [NaN; NaN] = Ok out ->
     extract_phenotypes (fun _ _ => NaN) NaN (fun x => x)
       (firstn i plate ++ pv' :: skipn (S i) plate) kind [NaN; NaN] [NaN; NaN]
     = Ok (firstn i out ++ non_iterable_value kind :: skipn (S i) out)) /\
  (In kind [MajorImpulseYieldContribution; FirstMinorImpulseYieldContribution;
           MajorImpulseAveragePopulationDoublingTime;
           FirstMinorImpulseAveragePopulationDoublingTime;
           InitialAccelerationAsymptoteAngle; FinalRetardationAsymptoteAngle;
           InitialAccelerationAsymptoteIntersect;
           FinalRetardationAsymptoteIntersect] ->
   forall i pre ys post,
     nth_error plate i = Some (PTuple (pre ++ PTuple ys :: post)) ->
     Forall (fun e => exists t d, e = PTuple [t; d]) pre -> length ys <> 2 ->
     (exists out, extract_phenotypes (fun _ _ => NaN) NaN (fun x => x)
                    (firstn i plate) kind (firstn i [NaN; NaN])
                    (firstn i [NaN; NaN]) = Ok out) ->
     extract_phenotypes (fun _ _ => NaN) NaN (fun x => x) plate kind
       [NaN; NaN] [NaN; NaN] = Exc ValueError).
Proof.
  cbv zeta.
  apply (extract_phenotypes_non_iterable_cell (fun _ _ => NaN) NaN (fun x => x)
           MajorImpulseYieldContribution [curve_I2; PNone] [NaN; NaN] [NaN; NaN]);
    reflexivity.
Defined.

(** ** InitialLag cell by cell *)

Lemma nth_error_cells_of_repeat : forall plate i pv (v : fl),
  nth_error plate i = Some pv ->
  nth_error (cells_of plate (repeat v (length plate)) (repeat v (length plate))) i
  = Some (pv, (v, v)).
Proof.
  unfold cells_of.
  induction plate as [|p plate IH]; intros i pv v H; [destruct i; discriminate|].
  destruct i as [|i]; simpl in *; [injection H as <-; reflexivity|]. apply IH. exact H.
Qed.

(** The InitialLag value of cell [i] is [lag_cell flat_impulse_id] of the
    cell's PhaseVector. *)
Lemma initial_lag_nth : forall plate out i pv,
  initial_lag plate = Ok out -> nth_error plate i = Some pv ->
  exists x, lag_cell flat_impulse_id pv = Ok x /\ nth_error out i = Some x.
Proof.
  intros plate out i pv H Hi.
  set (fill := repeat NaN (length plate)).
  assert (Hf : length fill = length plate) by apply repeat_length.
  assert (Hx : extract_phenotypes (fun _ _ => NaN) NaN (fun x => x) plate
                 InitialLag fill fill = Ok out) by exact H.
  pose proof (to_option_Ok _ _ _
                (extract_phenotypes_cells_of (fun _ _ => NaN) NaN (fun x => x)
                   InitialLag plate fill fill Hf Hf) Hx) as Hm.
  destruct (mapM_nth _ _ _ _ _ Hm (nth_error_cells_of_repeat plate i pv NaN Hi))
    as [x [Hc Hn]].
  exists x. split; [exact Hc | exact Hn].
Qed.

Lemma crossing_time_nan_impulse : forall a b,
  crossing_time a b NaN NaN = NaN.
Proof. intros [| | |q] [| | |r]; reflexivity. Qed.

(** C3 (corrected): the Impulse whose line InitialLag uses is the first
    Impulse found anywhere after the first Flat of the cell's phase-type
    sequence (its index is what [_get_phase_id] returns for
    [(Flat, Impulse)]), not necessarily one adjacent to a Flat; the cell's
    InitialLag is the crossing time computed with that segment, and when
    there is no Impulse after the first Flat (or no Flat) the index is -1
    and the cell's InitialLag is NaN. The PhaseVector is a non-empty
    sequence of (phase type, phenotype dict) pairs. *)
Theorem initial_lag_first_impulse_after_first_flat :
  forall plate out i segs,
  segs <> [] ->
  nth_error plate i = Some (phase_vector segs) ->
  initial_lag plate = Ok out ->
  flat_impulse_id (phase_vector segs)
    = Ok (PInt (match first_impulse_after_first_flat (map fst segs) with
                | Some j => Z.of_nat j
                | None => (-1)%Z
                end)) /\
  (exists x, lag_cell flat_impulse_id (phase_vector segs) = Ok x /\
             nth_error out i = Some x) /\
  (first_impulse_after_first_flat (map fst segs) = None ->
   nth_error out i = Some NaN).
Proof.
  intros plate out i segs Hne Hi H.
  assert (Hid : flat_impulse_id (phase_vector segs)
    = Ok (PInt (match first_impulse_after_first_flat (map fst segs) with
                | Some j => Z.of_nat j
                | None => (-1)%Z
                end))).
  { unfold flat_impulse_id. rewrite (get_phase_id_cell_flat_impulse segs Hne).
    reflexivity. }
  destruct (initial_lag_nth plate out i _ H Hi) as [x [Hc Hn]].
  split; [exact Hid|]. split; [exists x; split; assumption|].
  intros Hnone. rewrite Hnone in Hid. rewrite Hn. f_equal.
  unfold lag_cell in Hc. rewrite Hid in Hc.
  destruct (custom_filter_value Flat LinearModelSlope non_empty (select_at 0)
              (phase_vector segs)) as [fs|e]; simpl in Hc; [|discriminate].
  destruct (custom_filter_value Flat LinearModelIntercept non_empty
              (select_at 0) (phase_vector segs)) as [fi|e]; simpl in Hc;
    [|discriminate].
  rewrite crossing_time_nan_impulse in Hc. congruence.
Qed.

Lemma initial_lag_first_impulse_after_first_flat_witness :
  flat_impulse_id curve_F_A_I = Ok (PInt 2).
Proof.
  unfold curve_F_A_I.
  refine (proj1 (initial_lag_first_impulse_after_first_flat
                   [phase_vector _] [Fin 3] 0 _ _ eq_refl _));
    [discriminate | vm_compute; reflexivity].
Defined.

(* ================================================================== *)
(** * Further properties of the code *)

(** ** [PhenotyperState] predicates after a wipe *)

(** After [wipe_extracted_phenotypes()] no plate has phenotypes and the
    reference-position, filter and undo checks all answer [False]; after
    [wipe_extracted_phenotypes(keep_filter=True)] with a filter present,
    [has_phenotype_filter()] raises [TypeError] ([len(None)]). *)
Theorem wipe_extracted_phenotypes_predicates : forall self plate,
  State.has_phenotypes_for_plate (State.wipe_extracted_phenotypes self false) plate
    = Ok false /\
  State.has_reference_surface_positions
    (State.wipe_extracted_phenotypes self false) = Ok false /\
  State.has_phenotype_filter (State.wipe_extracted_phenotypes self false)
    = Ok false /\
  State.has_phenotype_filter_undo (State.wipe_extracted_phenotypes self false)
    = Ok false /\
  (is_none (State.phenotype_filter self) = false ->
   State.has_phenotype_filter (State.wipe_extracted_phenotypes self true)
   = Exc TypeError).
Proof.
  intros [p r np md pf pfu rsp sg td vmp vp ex] plate.
  cbv zeta. repeat split; try reflexivity.
  intros Hpf. simpl in Hpf.
  unfold State.has_phenotype_filter. simpl. rewrite Hpf. reflexivity.
Qed.

Lemma wipe_extracted_phenotypes_predicates_witness :
  let self := State.mk_state (PTuple [PNone]) (PTuple [PNone]) PNone PNone
                (PTuple [PDict []]) (PTuple [PTuple []]) (PTuple [PNone])
                PNone PNone PNone PNone [] in
  State.has_phenotype_filter (State.wipe_extracted_phenotypes self true)
    = Exc TypeError.
Proof.
  intros self.
  refine (proj2 (proj2 (proj2 (proj2
            (wipe_extracted_phenotypes_predicates self 0%Z)))) _).
  reflexivity.
Defined.

(** ** Candidate slots *)

Lemma py_range_In : forall lo hi k,
  In k (py_range lo hi) <-> (lo <= k < hi)%Z.
Proof.
  intros lo hi k. unfold py_range. rewrite in_map_iff. split.
  - intros [n [<- Hn]]. apply in_seq in Hn. lia.
  - intros Hk. exists (Z.to_nat (k - lo)). split; [lia|].
    apply in_seq. lia.
Qed.

(** On the Right side of the major phase, [get_possible] ranges from 0:
    every slot index is a candidate, the slots left of the major one
    included, and the list runs past the last slot whenever
    [major_phase_id] is not below the number of slots. *)
Theorem get_possible_right_from_zero : forall phases major_phase_id prev l,
  get_possible phases major_phase_id prev Right = Ok l ->
  (forall k, (0 <= k < Z.of_nat (length phases))%Z -> In k l) /\
  (length phases <= major_phase_id ->
   In (Z.of_nat major_phase_id) l /\
   slot_at phases (Z.of_nat major_phase_id) = Exc IndexError).
Proof.
  intros phases m prev l H. unfold get_possible in H.
  destruct prev; try discriminate; simpl in H; injection H as <-;
    (split; [intros k Hk; apply py_range_In; lia|]);
    intros Hm; (split; [apply py_range_In; lia|]);
    unfold slot_at, index_list;
    (destruct (Z.ltb (Z.of_nat m) 0) eqn:E1; [lia|]);
    (replace (Z.ltb (Z.of_nat m) 0) with false by (symmetry; apply Z.ltb_ge; lia));
    rewrite Nat2Z.id; rewrite (proj2 (nth_error_None phases m) Hm); reflexivity.
Qed.

Lemma get_possible_right_from_zero_witness :
  get_possible [mk_slot Flat [(0, 0)] None] 1 PNone Right = Ok [0%Z; 1%Z] /\
  In 1%Z [0%Z; 1%Z].
Proof.
  split; [reflexivity|].
  refine (proj1 (proj2 (get_possible_right_from_zero
                          [mk_slot Flat [(0, 0)] None] 1 PNone [0%Z; 1%Z]
                          eq_refl) _)).
  simpl; lia.
Defined.

(** ** Slot anchors and energies *)

Lemma ref_eqb_refl : forall r, ref_eqb r r = true.
Proof. intros [a b]. unfold ref_eqb. simpl. rewrite !Nat.eqb_refl. reflexivity. Qed.

Lemma ref_eqb_eq : forall r r', ref_eqb r r' = true -> r = r'.
Proof.
  intros [a b] [c d] H. unfold ref_eqb in H. simpl in H.
  apply andb_true_iff in H as [H1 H2].
  apply Nat.eqb_eq in H1, H2. subst. reflexivity.
Qed.

Lemma set_add_In : forall r ms,
  In r (set_add r ms) /\ (forall x, In x ms -> In x (set_add r ms)).
Proof.
  intros r ms. unfold set_add.
  destruct (existsb (ref_eqb r) ms) eqn:E.
  - split; [|tauto].
    apply existsb_exists in E as [x [Hx Hr]].
    apply ref_eqb_eq in Hr. subst. exact Hx.
  - split.
    + apply in_or_app. right. left. reflexivity.
    + intros x Hx. apply in_or_app. left. exact Hx.
Qed.

(** [add_to_phase] keeps the slot's type and members and adds the segment;
    the slot's anchor becomes the segment's anchor when it had none, and
    otherwise [0.9 * old + 0.1 * new], which lies between the two. *)
Theorem add_to_phase_member_and_anchor : forall pp r s end_time mpt s',
  add_to_phase pp r s end_time mpt = Ok s' ->
  slot_type s' = slot_type s /\
  In r (slot_members s') /\
  (forall x, In x (slot_members s) -> In x (slot_members s')) /\
  exists start anchor,
    relative_start pp end_time mpt = Ok start /\
    relative_offset (Some (1 # 2)) pp end_time mpt start = Ok anchor /\
    (slot_anchor s = None -> slot_anchor s' = Some anchor) /\
    (forall old, slot_anchor s = Some old ->
       slot_anchor s' = Some (fl_add (fl_mul (Fin (9 # 10)) old)
                                     (fl_mul (Fin (1 # 10)) anchor))) /\
    (forall qa qn, slot_anchor s = Some (Fin qa) -> anchor = Fin qn ->
       exists q, slot_anchor s' = Some (Fin q) /\
         (q == (9 # 10) * qa + (1 # 10) * qn)%Q /\
         (Qmin qa qn <= q <= Qmax qa qn)%Q).
Proof.
  intros pp r [ty ms an] et mpt s' H. unfold add_to_phase in H. simpl in H.
  destruct (relative_start pp et mpt) as [st|e] eqn:Es; simpl in H;
    [|discriminate].
  destruct (relative_offset (Some (1 # 2)) pp et mpt st) as [a|e] eqn:Ea;
    simpl in H; [|discriminate].
  injection H as <-. simpl.
  destruct (set_add_In r ms) as [H1 H2].
  split; [reflexivity|]. split; [exact H1|]. split; [exact H2|].
  exists st, a. do 2 (split; [first [reflexivity | assumption]|]). split; [|split].
  - intros ->. reflexivity.
  - intros old ->. reflexivity.
  - intros qa qn -> ->. simpl.
    eexists; split; [reflexivity|]. split; [reflexivity|].
    destruct (Qlt_le_dec qa qn) as [Hlt|Hle].
    + rewrite Q.min_l, Q.max_r by lra. lra.
    + rewrite Q.min_r, Q.max_l by lra. lra.
Qed.

Lemma add_to_phase_member_and_anchor_witness :
  exists s',
    add_to_phase
      (PTuple [PPhase Flat; pheno_dict [(Start, 1); (Duration, 2)]%Q]) (0, 3)
      (mk_slot Flat [(1, 0)] (Some (Fin 0))) (Fin 10) (PFloat (Fin 4))
    = Ok s' /\ In (0, 3) (slot_members s').
Proof.
  destruct (add_to_phase
      (PTuple [PPhase Flat; pheno_dict [(Start, 1); (Duration, 2)]%Q]) (0, 3)
      (mk_slot Flat [(1, 0)] (Some (Fin 0))) (Fin 10) (PFloat (Fin 4)))
    as [s'|e] eqn:E.
  - exists s'. split; [reflexivity|].
    exact (proj1 (proj2 (add_to_phase_member_and_anchor _ _ _ _ _ _ E))).
  - vm_compute in E. discriminate E.
Defined.

Lemma phase_eqb_refl : forall p, phase_eqb p p = true.
Proof. intros []; reflexivity. Qed.

Lemma fl_le_Fin : forall x y, fl_le (Fin x) (Fin y) = Qle_bool x y.
Proof.
  intros x y. unfold fl_le, fl_lt, fl_eqb.
  destruct (Qle_bool x y) eqn:E3.
  - apply Qle_bool_iff in E3. destruct (Qeq_dec x y) as [Heq|Hne].
    + rewrite (proj2 (Qeq_bool_iff x y) Heq). apply orb_true_r.
    + assert (Hf : Qle_bool y x = false).
      { destruct (Qle_bool y x) eqn:E; [|reflexivity].
        apply Qle_bool_iff in E. exfalso. apply Hne. lra. }
      rewrite Hf. reflexivity.
  - assert (Hn : ~ (x <= y)%Q) by (intro Hc; apply Qle_bool_iff in Hc; congruence).
    assert (Ht : Qle_bool y x = true) by (apply Qle_bool_iff; lra).
    assert (Hf : Qeq_bool x y = false).
    { destruct (Qeq_bool x y) eqn:E; [|reflexivity].
      apply Qeq_bool_iff in E. exfalso. apply Hn. lra. }
    rewrite Ht, Hf. reflexivity.
Qed.

Lemma fl_div_Fin_pos : forall x y, (0 < y)%Q -> fl_div (Fin x) (Fin y) = Fin (x / y).
Proof.
  intros x y Hy. simpl. destruct (Qeq_bool y 0) eqn:E; [|reflexivity].
  apply Qeq_bool_iff in E. lra.
Qed.

Lemma Qdiv_pos_nonzero : forall m d,
  (0 < m)%Q -> (0 < d)%Q -> (0 <= m / d)%Q /\ ~ (m / d == 0)%Q.
Proof.
  intros m d Hm Hd.
  assert (H : (0 < m / d)%Q).
  { apply Qlt_shift_div_l; [exact Hd|]. rewrite Qmult_0_l. exact Hm. }
  split; lra.
Qed.

(** [get_energy] of a segment and a slot of its type, the segment spanning
    a proper window [start, end]: 0 when the slot has no anchor yet;
    otherwise a value [>= 0] that is 0 exactly when the anchor lies in the
    window (the distance to the nearer window end, relative to the window
    length, outside it). *)
Theorem get_energy_zero_iff_anchor_in_window : forall s pp et mpt qs qe,
  getitem pp (PInt 0) = Ok (PPhase (slot_type s)) ->
  relative_start pp et mpt = Ok (Fin qs) ->
  relative_offset None pp et mpt (Fin qs) = Ok (Fin qe) ->
  (qs < qe)%Q ->
  (slot_anchor s = None -> get_energy s pp et mpt = Ok (Fin 0)) /\
  (forall qa, slot_anchor s = Some (Fin qa) ->
     exists e, get_energy s pp et mpt = Ok (Fin e) /\ (0 <= e)%Q /\
       (e == 0 <-> qs <= qa /\ qa <= qe)%Q).
Proof.
  intros [ty ms an] pp et mpt qs qe Ht Hs He Hlt. simpl in Ht |- *.
  unfold get_energy. rewrite Ht. simpl. rewrite phase_eqb_refl. simpl.
  rewrite Hs. simpl. rewrite He. simpl.
  split; [intros ->; reflexivity|].
  intros qa ->. rewrite !fl_le_Fin.
  destruct (Qle_bool qs qa) eqn:E1, (Qle_bool qa qe) eqn:E2; cbn [andb].
  - exists 0%Q. split; [reflexivity|]. split; [lra|].
    apply Qle_bool_iff in E1, E2. split; [intros _; split; assumption | lra].
  - assert (Hout : (qe < qa)%Q).
    { apply Qnot_le_lt. intro Hc. apply Qle_bool_iff in Hc. congruence. }
    change (fl_abs (fl_sub (Fin qa) (Fin qe))) with (Fin (Qabs (qa + - qe))).
    change (fl_abs (fl_sub (Fin qa) (Fin qs))) with (Fin (Qabs (qa + - qs))).
    change (fl_sub (Fin qe) (Fin qs)) with (Fin (qe + - qs)).
    set (u := Qabs (qa + - qe)). set (v := Qabs (qa + - qs)).
    unfold fl_min.
    assert (Hu : (0 < u)%Q).
    { unfold u. rewrite Qabs_pos by lra. lra. }
    assert (Hv : (0 < v)%Q).
    { unfold v. rewrite Qabs_pos; apply Qle_bool_iff in E1; lra. }
    destruct (fl_lt (Fin v) (Fin u));
      (rewrite fl_div_Fin_pos by lra; eexists; split; [reflexivity|]);
      match goal with |- (0 <= ?m / _)%Q /\ _ =>
        destruct (Qdiv_pos_nonzero m (qe + - qs) ltac:(lra) ltac:(lra)) as [Hq1 Hq2] end;
      (split; [exact Hq1|]); (split; [intro Hc; contradiction | intros [Hc1 Hc2]; lra]).
  - assert (Hout : (qa < qs)%Q).
    { apply Qnot_le_lt. intro Hc. apply Qle_bool_iff in Hc. congruence. }
    change (fl_abs (fl_sub (Fin qa) (Fin qe))) with (Fin (Qabs (qa + - qe))).
    change (fl_abs (fl_sub (Fin qa) (Fin qs))) with (Fin (Qabs (qa + - qs))).
    change (fl_sub (Fin qe) (Fin qs)) with (Fin (qe + - qs)).
    set (u := Qabs (qa + - qe)). set (v := Qabs (qa + - qs)).
    unfold fl_min.
    assert (Hu : (0 < u)%Q).
    { unfold u. rewrite Qabs_neg by lra. lra. }
    assert (Hv : (0 < v)%Q).
    { unfold v. rewrite Qabs_neg by lra. lra. }
    destruct (fl_lt (Fin v) (Fin u));
      (rewrite fl_div_Fin_pos by lra; eexists; split; [reflexivity|]);
      match goal with |- (0 <= ?m / _)%Q /\ _ =>
        destruct (Qdiv_pos_nonzero m (qe + - qs) ltac:(lra) ltac:(lra)) as [Hq1 Hq2] end;
      (split; [exact Hq1|]); (split; [intro Hc; contradiction | intros [Hc1 Hc2]; lra]).
  - assert (Hout : (qa < qs)%Q).
    { apply Qnot_le_lt. intro Hc. apply Qle_bool_iff in Hc. congruence. }
    change (fl_abs (fl_sub (Fin qa) (Fin qe))) with (Fin (Qabs (qa + - qe))).
    change (fl_abs (fl_sub (Fin qa) (Fin qs))) with (Fin (Qabs (qa + - qs))).
    change (fl_sub (Fin qe) (Fin qs)) with (Fin (qe + - qs)).
    set (u := Qabs (qa + - qe)). set (v := Qabs (qa + - qs)).
    unfold fl_min.
    assert (Hu : (0 < u)%Q).
    { unfold u. rewrite Qabs_neg by lra. lra. }
    assert (Hv : (0 < v)%Q).
    { unfold v. rewrite Qabs_neg by lra. lra. }
    destruct (fl_lt (Fin v) (Fin u));
      (rewrite fl_div_Fin_pos by lra; eexists; split; [reflexivity|]);
      match goal with |- (0 <= ?m / _)%Q /\ _ =>
        destruct (Qdiv_pos_nonzero m (qe + - qs) ltac:(lra) ltac:(lra)) as [Hq1 Hq2] end;
      (split; [exact Hq1|]); (split; [intro Hc; contradiction | intros [Hc1 Hc2]; lra]).
Qed.

Lemma get_energy_zero_iff_anchor_in_window_witness :
  get_energy (mk_slot Flat [] None)
    (PTuple [PPhase Flat; pheno_dict [(Start, 1); (Duration, 2)]%Q])
    (Fin 10) (PFloat (Fin 4)) = Ok (Fin 0).
Proof.
  refine (proj1 (get_energy_zero_iff_anchor_in_window (mk_slot Flat [] None)
    (PTuple [PPhase Flat; pheno_dict [(Start, 1); (Duration, 2)]%Q])
    (Fin 10) (PFloat (Fin 4)) _ _ eq_refl eq_refl eq_refl _) eq_refl).
  vm_compute. reflexivity.
Defined.

(** ** [optimal_phase] *)

Lemma optimal_loop_cons : forall phases pp et mpt k l me bi,
  optimal_loop phases pp et mpt (k :: l) me bi =
  let* s := slot_at phases k in
  let* energy := get_energy s pp et mpt in
  if fl_lt energy (Fin 1)
     && match me with None => true | Some m => fl_lt energy m end
  then optimal_loop phases pp et mpt l (Some energy) (Some k)
  else optimal_loop phases pp et mpt l me bi.
Proof. reflexivity. Qed.

Lemma optimal_loop_result : forall phases pp et mpt l me bi r,
  optimal_loop phases pp et mpt l me bi = Ok r ->
  r = bi \/
  exists b s e, r = Some b /\ In b l /\ slot_at phases b = Ok s /\
    get_energy s pp et mpt = Ok e /\ fl_lt e (Fin 1) = true.
Proof.
  intros phases pp et mpt l; induction l as [|k l IH]; intros me bi r H.
  - left. simpl in H. congruence.
  - rewrite optimal_loop_cons in H.
    destruct (slot_at phases k) as [s|ex] eqn:Es; [|discriminate].
    rewrite bind_Ok in H.
    destruct (get_energy s pp et mpt) as [e|ex] eqn:Ee; [|discriminate].
    rewrite bind_Ok in H.
    destruct (fl_lt e (Fin 1) && match me with
                                 | None => true
                                 | Some m => fl_lt e m
                                 end) eqn:Ec.
    + destruct (IH _ _ _ H) as [-> | [b [s' [e' [-> [Hin [Hs [He Hl]]]]]]]].
      * right. exists k, s, e. apply andb_true_iff in Ec as [Ec _].
        repeat split; auto. left; reflexivity.
      * right. exists b, s', e'. repeat split; auto. right; exact Hin.
    + destruct (IH _ _ _ H) as [-> | [b [s' [e' [-> [Hin [Hs [He Hl]]]]]]]].
      * left; reflexivity.
      * right. exists b, s', e'. repeat split; auto. right; exact Hin.
Qed.

Lemma optimal_loop_none_below_one : forall phases pp et mpt l me bi,
  (forall z s e, In z l -> slot_at phases z = Ok s ->
     get_energy s pp et mpt = Ok e -> fl_lt e (Fin 1) = false) ->
  (forall z, In z l -> exists s e, slot_at phases z = Ok s /\
     get_energy s pp et mpt = Ok e) ->
  optimal_loop phases pp et mpt l me bi = Ok bi.
Proof.
  intros phases pp et mpt l; induction l as [|k l IH]; intros me bi Hno Hok.
  - reflexivity.
  - destruct (Hok k (or_introl eq_refl)) as [s [e [Hs He]]].
    rewrite optimal_loop_cons, Hs, bind_Ok, He, bind_Ok.
    rewrite (Hno k s e (or_introl eq_refl) Hs He). simpl.
    apply IH.
    + intros z s' e' Hin. apply Hno. right; exact Hin.
    + intros z Hin. apply Hok. right; exact Hin.
Qed.

(** [optimal_phase] answers [None] exactly when the segment's own index
    [phase_ref[1]] is not a slot index; otherwise it starts from slot
    [phase_ref[1]] (the segment's position in its curve, used as a slot
    index) and answers a candidate only if that candidate's energy is below
    1, so with no candidate below 1 the answer is slot [phase_ref[1]],
    whatever that slot's type or energy. *)
Theorem optimal_phase_defaults_to_segment_index :
  forall phases m pp r prev side et mpt res,
  optimal_phase phases m pp r prev side et mpt = Ok res ->
  (res = None <-> length phases <= snd r) /\
  (forall b, res = Some b ->
     b = Z.of_nat (snd r) \/
     exists l s e, get_possible phases m prev side = Ok l /\ In b l /\
       slot_at phases b = Ok s /\ get_energy s pp et mpt = Ok e /\
       fl_lt e (Fin 1) = true) /\
  (forall l, get_possible phases m prev side = Ok l ->
     (forall z s e, In z l -> slot_at phases z = Ok s ->
        get_energy s pp et mpt = Ok e -> fl_lt e (Fin 1) = false) ->
     snd r < length phases -> res = Some (Z.of_nat (snd r))).
Proof.
  intros phases m pp r prev side et mpt res H.
  unfold optimal_phase in H.
  destruct (get_possible phases m prev side) as [l|ex] eqn:Ep; simpl in H;
    [|discriminate].
  destruct (Nat.leb (length phases) (snd r)) eqn:El.
  - injection H as <-. apply Nat.leb_le in El.
    split; [tauto|]. split; [intros b Hb; discriminate|].
    intros l' _ _ Hlt. lia.
  - apply Nat.leb_gt in El.
    destruct (slot_at phases (Z.of_nat (snd r))) as [s0|ex] eqn:Es0;
      simpl in H; [|discriminate].
    destruct (get_energy s0 pp et mpt) as [e0|ex] eqn:Ee0; simpl in H;
      [|discriminate].
    destruct (optimal_loop_result _ _ _ _ _ _ _ _ H)
      as [-> | [b [s [e [-> [Hin [Hs [He Hl]]]]]]]].
    + split; [split; [discriminate | lia]|]. split.
      * intros b Hb. left. congruence.
      * intros _ _ _ _. reflexivity.
    + split; [split; [discriminate | lia]|]. split.
      * intros b' Hb. injection Hb as <-. right.
        exists l, s, e. repeat split; assumption.
      * intros l' Hl' Hno _. injection Hl' as <-.
        rewrite (Hno b s e Hin Hs He) in Hl. discriminate.
Qed.

Lemma optimal_phase_defaults_to_segment_index_witness :
  let phases := [mk_slot Impulse [(0, 0)] (Some (Fin 0));
                 mk_slot Flat [(0, 1)] (Some (Fin 5))] in
  let pp := PTuple [PPhase Flat; pheno_dict [(Start, 1); (Duration, 2)]%Q] in
  optimal_phase phases 0 pp (1, 0) PNone Both (Fin 10) (PFloat (Fin 4))
  = Ok (Some 0%Z).
Proof.
  intros phases pp.
  destruct (optimal_phase phases 0 pp (1, 0) PNone Both (Fin 10)
              (PFloat (Fin 4))) as [res|ex] eqn:E.
  - refine (f_equal Ok (proj2 (proj2
      (optimal_phase_defaults_to_segment_index _ _ _ _ _ _ _ _ _ E))
      [0%Z; 1%Z] eq_refl _ _)).
    + intros z s e Hin Hs He. simpl in Hin.
      destruct Hin as [<- | [<- | []]]; vm_compute in Hs; injection Hs as <-;
        vm_compute in He; injection He as <-; reflexivity.
    + simpl. lia.
  - vm_compute in E. discriminate E.
Defined.

Lemma insert_position_found : forall phases a possible acc k,
  insert_position phases a possible acc = Ok (Some k) ->
  (possible = [] /\ acc = Some k) \/
  exists pre post s b,
    possible = pre ++ k :: post /\
    (forall j, In j pre -> exists sj bj, slot_at phases j = Ok sj /\
        slot_anchor sj = Some bj /\ fl_lt a bj = false) /\
    slot_at phases k = Ok s /\ slot_anchor s = Some b /\
    (post = [] \/ fl_lt a b = true).
Proof.
  intros phases a possible. induction possible as [|k0 rest IH];
    intros acc k H; simpl in H.
  - left. split; [reflexivity|congruence].
  - right. destruct (slot_at phases k0) as [s|e] eqn:Es; simpl in H;
      [|discriminate].
    destruct (slot_anchor s) as [b|] eqn:Eb; [|discriminate].
    destruct (fl_lt a b) eqn:Elt.
    + injection H as <-. exists [], rest, s, b.
      repeat split; auto. intros j [].
    + destruct (IH _ _ H) as [[-> Hk]|(pre & post & s' & b' & -> & Hpre & Hs' & Hb' & Hp)].
      * injection Hk as <-. exists [], [], s, b. repeat split; auto. intros j [].
      * exists (k0 :: pre), post, s', b'. repeat split; auto.
        intros j [<-|Hj]; [exists s, b; auto|auto].
Qed.

Lemma insert_position_none : forall phases a possible,
  insert_position phases a possible None = Ok None -> possible = [].
Proof.
  intros phases a possible H.
  destruct possible as [|k0 rest]; [reflexivity|]. exfalso.
  assert (G : forall rest acc k0,
             insert_position phases a (k0 :: rest) acc <> Ok None).
  2: exact (G rest None k0 H).
  clear H rest k0. intros rest.
  induction rest as [|k1 rest IH]; intros acc k0 H; simpl in H;
    (destruct (slot_at phases k0) as [s|e]; simpl in H; [|discriminate]);
    (destruct (slot_anchor s) as [b|]; [|discriminate]);
    (destruct (fl_lt a b); [discriminate|]).
  - discriminate.
  - exact (IH (Some k0) k1 H).
Qed.

Lemma slot_at_nonneg_lt : forall phases k s,
  (0 <= k)%Z -> slot_at phases k = Ok s -> (Z.to_nat k < length phases)%nat.
Proof.
  intros phases k s Hk H. unfold slot_at, index_list in H.
  replace (Z.ltb k 0) with false in H by (symmetry; apply Z.ltb_ge; lia).
  replace (Z.ltb k 0) with false in H by (symmetry; apply Z.ltb_ge; lia).
  destruct (nth_error phases (Z.to_nat k)) eqn:E; [|discriminate].
  apply nth_error_Some. congruence.
Qed.

Lemma replace_at_app : forall {A} (l1 l2 : list A) x y n,
  length l1 = n ->
  firstn n (l1 ++ x :: l2) ++ y :: skipn (S n) (l1 ++ x :: l2)
  = l1 ++ y :: l2.
Proof.
  intros A l1. induction l1 as [|h t IH]; intros l2 x y n <-; simpl;
    [reflexivity|f_equal; apply IH; reflexivity].
Qed.

Lemma insert_phase_found_eq :
  forall phases m pp id prev side et mpt possible st a ty k,
  get_possible phases m prev side = Ok possible ->
  relative_start pp et mpt = Ok st ->
  relative_offset (Some (1 # 2)) pp et mpt st = Ok a ->
  getitem pp (PInt 0) = Ok (PPhase ty) ->
  insert_position phases a possible None = Ok (Some k) ->
  (0 <= k)%Z ->
  insert_phase phases m pp id prev side et mpt
    = Ok (firstn (Z.to_nat k) phases ++ mk_slot ty [id] (Some a)
            :: skipn (Z.to_nat k) phases).
Proof.
  intros phases m pp id prev side et mpt possible st a ty k
    Hp Hs Ha Ht Hi Hk.
  destruct (insert_position_found _ _ _ _ _ Hi)
    as [[_ Hc]|(pre & post & s & b & Epos & Hpre & Hsk & Hb & Hpost)];
    [discriminate|].
  pose proof (slot_at_nonneg_lt _ _ _ Hk Hsk) as Hlt.
  unfold insert_phase. rewrite Hp, bind_Ok, Hs, bind_Ok, Ha, bind_Ok, Hi,
    bind_Ok, Ht, bind_Ok.
  set (j := Z.to_nat k).
  assert (Hins : list_insert k (mk_slot ty [] None) phases
                 = firstn j phases ++ mk_slot ty [] None :: skipn j phases).
  { unfold list_insert. replace (Z.ltb k 0) with false by (symmetry; apply Z.ltb_ge; lia).
    replace (Z.min k (Z.of_nat (length phases))) with k by lia. reflexivity. }
  assert (Hlen : length (firstn j phases) = j)
    by (apply firstn_length_le; lia).
  rewrite Hins.
  assert (Hat : slot_at (firstn j phases ++ mk_slot ty [] None :: skipn j phases) k
                = Ok (mk_slot ty [] None)).
  { unfold slot_at, index_list.
    replace (Z.ltb k 0) with false by (symmetry; apply Z.ltb_ge; lia).
    replace (Z.ltb k 0) with false by (symmetry; apply Z.ltb_ge; lia).
    fold j. rewrite nth_error_app2 by lia. rewrite Hlen, Nat.sub_diag. reflexivity. }
  rewrite Hat, bind_Ok.
  unfold add_to_phase at 1. rewrite Hs, bind_Ok, Ha, bind_Ok. simpl slot_type.
  rewrite bind_Ok. unfold list_set.
  replace (Z.ltb k 0) with false by (symmetry; apply Z.ltb_ge; lia).
  fold j. rewrite (replace_at_app _ _ _ _ j Hlen). reflexivity.
Qed.

(** [insert_phase] with a candidate slot found: the loop stops at the first
    candidate whose anchor is larger than the segment's anchor, or else at the
    last candidate, every candidate visited having an anchor; a new slot of
    the segment's type, holding only [id_tup] and anchored at the segment's
    anchor, is inserted at that index, in front of the slot there, and every
    other slot is kept in order. *)
Theorem insert_phase_inserts_at_found_candidate :
  forall phases m pp id prev side et mpt possible st a ty k,
  get_possible phases m prev side = Ok possible ->
  relative_start pp et mpt = Ok st ->
  relative_offset (Some (1 # 2)) pp et mpt st = Ok a ->
  getitem pp (PInt 0) = Ok (PPhase ty) ->
  insert_position phases a possible None = Ok (Some k) ->
  (0 <= k)%Z ->
  insert_phase phases m pp id prev side et mpt
    = Ok (firstn (Z.to_nat k) phases ++ mk_slot ty [id] (Some a)
            :: skipn (Z.to_nat k) phases) /\
  exists pre post s b,
    possible = pre ++ k :: post /\
    (forall j, In j pre -> exists sj bj, slot_at phases j = Ok sj /\
        slot_anchor sj = Some bj /\ fl_lt a bj = false) /\
    slot_at phases k = Ok s /\ slot_anchor s = Some b /\
    (post = [] \/ fl_lt a b = true).
Proof.
  intros phases m pp id prev side et mpt possible st a ty k
    Hp Hs Ha Ht Hi Hk.
  split; [exact (insert_phase_found_eq _ _ _ _ _ _ _ _ _ _ _ _ _
                   Hp Hs Ha Ht Hi Hk)|].
  destruct (insert_position_found _ _ _ _ _ Hi)
    as [[_ Hc]|(pre & post & s & b & Epos & Hpre & Hsk & Hb & Hpost)];
    [discriminate|].
  exists pre, post, s, b. auto.
Qed.

Lemma insert_phase_inserts_at_found_candidate_witness :
  exists r,
    insert_phase [mk_slot Flat [(0, 0)] (Some (Fin 0));
                  mk_slot Flat [(1, 0)] (Some (Fin 5))] 0
      (PTuple [PPhase Flat; pheno_dict [(Start, 1); (Duration, 2)]%Q]) (2, 0)
      PNone Both (Fin 10) (PFloat (Fin 4)) = Ok r /\ length r = 3%nat.
Proof.
  destruct (relative_start
      (PTuple [PPhase Flat; pheno_dict [(Start, 1); (Duration, 2)]%Q])
      (Fin 10) (PFloat (Fin 4))) as [st|e] eqn:Es;
    [|vm_compute in Es; discriminate Es].
  pose proof Es as Es'. vm_compute in Es'. injection Es' as Est. subst st.
  destruct (relative_offset (Some (1 # 2))
      (PTuple [PPhase Flat; pheno_dict [(Start, 1); (Duration, 2)]%Q])
      (Fin 10) (PFloat (Fin 4)) (Fin ((1 # 4) - 1))) as [a|e] eqn:Ea;
    [|vm_compute in Ea; discriminate Ea].
  pose proof Ea as Ea'. vm_compute in Ea'. injection Ea' as Eat. subst a.
  destruct (insert_phase_inserts_at_found_candidate
      [mk_slot Flat [(0, 0)] (Some (Fin 0)); mk_slot Flat [(1, 0)] (Some (Fin 5))]
      0 (PTuple [PPhase Flat; pheno_dict [(Start, 1); (Duration, 2)]%Q]) (2, 0)
      PNone Both (Fin 10) (PFloat (Fin 4)) [0; 1]%Z _ _ Flat 0%Z
      eq_refl Es Ea eq_refl ltac:(vm_compute; reflexivity) ltac:(lia))
    as [H _].
  eexists. split; [exact H|reflexivity].
Defined.

Lemma collect_impulses_are_impulses : forall phases so i imps,
  collect_impulses phases i so = Ok imps ->
  forall p, In p imps ->
  exists e t, getitem phases (PInt (Z.of_nat (fst p))) = Ok e /\
    getitem e (PInt 0) = Ok t /\ py_eq t (PPhase Impulse) = true.
Proof.
  intros phases so. induction so as [|v rest IH]; intros i imps H p Hp;
    simpl in H.
  - injection H as <-. destruct Hp.
  - destruct (getitem phases (PInt (Z.of_nat i))) as [e|x] eqn:Ee;
      simpl in H; [|discriminate].
    destruct (getitem e (PInt 0)) as [t|x] eqn:Et; simpl in H; [|discriminate].
    destruct (collect_impulses phases (S i) rest) as [tl|x] eqn:Etl;
      simpl in H; [|discriminate].
    destruct (py_eq t (PPhase Impulse)) eqn:Eq.
    + injection H as <-. destruct Hp as [<-|Hp]; [exists e, t; auto|].
      exact (IH _ _ Etl p Hp).
    + injection H as <-. exact (IH _ _ Etl p Hp).
Qed.

Lemma argmax_from_lt : forall l bp b pos,
  (bp < pos)%nat -> (argmax_from bp b pos l < pos + length l)%nat.
Proof.
  induction l as [|x l IH]; intros bp b pos H; simpl.
  - lia.
  - destruct (Nat.ltb b x).
    + specialize (IH pos x (S pos) ltac:(lia)). lia.
    + specialize (IH bp b (S pos) ltac:(lia)). lia.
Qed.

Lemma argmax_lt : forall l, l <> [] -> (argmax l < length l)%nat.
Proof.
  intros [|x l] H; [congruence|]. unfold argmax.
  pose proof (argmax_from_lt l 0 x 1 ltac:(lia)). simpl. lia.
Qed.

(** [_py_get_major_impulse_for_plate]: the result is [-1] (no impulse, or a
    [TypeError] caught) or a non-negative index [i] whose entry
    [phases[i]] is labelled [CurvePhases.Impulse]. *)
Theorem major_impulse_for_plate_points_at_impulse : forall phases r,
  py_get_major_impulse_for_plate phases = Ok r ->
  r = PInt (-1) \/
  exists z e t, r = PInt z /\ (0 <= z)%Z /\
    getitem phases (PInt z) = Ok e /\ getitem e (PInt 0) = Ok t /\
    py_eq t (PPhase Impulse) = true.
Proof.
  intros phases r H. unfold py_get_major_impulse_for_plate, catch_type_error in H.
  match type of H with
  | match ?m with _ => _ end = _ => destruct m as [r'|[]] eqn:Em
  end; try discriminate; [|injection H as <-; left; reflexivity].
  injection H as ->.
  destruct (py_iter phases) as [entries|x]; simpl in Em; [|discriminate].
  destruct (mapM _ entries) as [vals|x]; simpl in Em; [|discriminate].
  destruct (mapM to_sort_key vals) as [keys|x]; simpl in Em; [|discriminate].
  destruct (collect_impulses phases 0 (argsort keys)) as [imps|x] eqn:Ec;
    simpl in Em; [|discriminate].
  destruct (existsb _ imps) eqn:Ex; injection Em as <-; [right|left; reflexivity].
  assert (Hne : imps <> []) by (intros ->; discriminate Ex).
  set (p := nth (argmax (map snd imps)) imps (0%nat, 0%nat)).
  assert (Hin : In p imps).
  { apply nth_In. rewrite <- (length_map snd imps).
    apply argmax_lt. intro Hm. apply Hne.
    destruct imps; [reflexivity|discriminate]. }
  destruct (collect_impulses_are_impulses _ _ _ _ Ec p Hin)
    as (e & t & He & Ht & Hq).
  exists (Z.of_nat (fst p)), e, t. repeat split; auto. lia.
Qed.

Lemma major_impulse_for_plate_points_at_impulse_witness :
  exists r, py_get_major_impulse_for_plate curve_I1_I3_F = Ok r /\
    (r = PInt (-1) \/
     exists z e t, r = PInt z /\ (0 <= z)%Z /\
       getitem curve_I1_I3_F (PInt z) = Ok e /\ getitem e (PInt 0) = Ok t /\
       py_eq t (PPhase Impulse) = true).
Proof.
  destruct (py_get_major_impulse_for_plate curve_I1_I3_F) as [r|x] eqn:E.
  - exists r. split; [reflexivity|].
    exact (major_impulse_for_plate_points_at_impulse _ _ E).
  - vm_compute in E. discriminate E.
Defined.

Lemma nth_pred_length_last : forall {A} (l : list A) d,
  nth (length l - 1) l d = last l d.
Proof.
  intros A l d. induction l as [|a l IH]; [reflexivity|].
  destruct l as [|b l']; [reflexivity|].
  change (last (a :: b :: l') d) with (last (b :: l') d). rewrite <- IH.
  simpl. rewrite Nat.sub_0_r. reflexivity.
Qed.

Lemma scan_phase_id_result : forall phases v i idp,
  scan_phase_id phases i idp v = (-1)%Z \/
  exists k, scan_phase_id phases i idp v = Z.of_nat (idp + k) /\
    (k < length v)%nat /\
    is_phase (nth k v PNone) (last phases Undetermined) = true.
Proof.
  intros phases v. induction v as [|p rest IH]; intros i idp;
    cbn [scan_phase_id]; [left; reflexivity|].
  destruct (Nat.ltb i (length phases)) eqn:Ei.
  - destruct (is_phase p (nth i phases Undetermined)) eqn:Ep.
    + destruct (Nat.eqb (S i) (length phases)) eqn:En.
      * right. exists 0%nat. rewrite Nat.add_0_r. split; [reflexivity|].
        split; [simpl; lia|]. simpl.
        apply Nat.eqb_eq in En. rewrite <- nth_pred_length_last, <- En.
        rewrite Nat.sub_succ, Nat.sub_0_r. exact Ep.
      * destruct (IH (S i) (S idp)) as [H|(k & H1 & H2 & H3)];
          [left; exact H|right; exists (S k)].
        rewrite H1. split; [f_equal; lia|]. split; [simpl; lia|exact H3].
    + destruct (IH i (S idp)) as [H|(k & H1 & H2 & H3)];
        [left; exact H|right; exists (S k)].
      rewrite H1. split; [f_equal; lia|]. split; [simpl; lia|exact H3].
  - destruct (IH i (S idp)) as [H|(k & H1 & H2 & H3)];
      [left; exact H|right; exists (S k)].
    rewrite H1. split; [f_equal; lia|]. split; [simpl; lia|exact H3].
Qed.

(** [_get_phase_id(plate, *phases)] on one cell: the result is [-1], or a
    position in the cell's sequence of segment labels (the first element of
    every entry) at which the label is the last of the requested [phases]. *)
Theorem get_phase_id_cell_points_at_last_phase : forall phases v z,
  get_phase_id_cell phases v = Ok z ->
  z = (-1)%Z \/
  exists firsts, zip_first v = Ok firsts /\
    (0 <= z < Z.of_nat (length firsts))%Z /\
    is_phase (nth (Z.to_nat z) firsts PNone) (last phases Undetermined) = true.
Proof.
  intros phases v z H. unfold get_phase_id_cell, catch_type_error in H.
  destruct (zip_first v) as [firsts|[]] eqn:Ez; simpl in H; try discriminate;
    injection H as <-; [|left; reflexivity].
  destruct (scan_phase_id_result phases firsts 0 0) as [H|(k & H1 & H2 & H3)];
    [left; exact H|right].
  exists firsts. rewrite H1. simpl. split; [reflexivity|].
  rewrite Nat2Z.id. split; [lia|exact H3].
Qed.

Lemma get_phase_id_cell_points_at_last_phase_witness :
  get_phase_id_cell [Flat; Impulse] curve_F_I = Ok 1%Z /\
  (1%Z = (-1)%Z \/
   exists firsts, zip_first curve_F_I = Ok firsts /\
     (0 <= 1 < Z.of_nat (length firsts))%Z /\
     is_phase (nth (Z.to_nat 1) firsts PNone) (last [Flat; Impulse] Undetermined)
       = true).
Proof.
  assert (E : get_phase_id_cell [Flat; Impulse] curve_F_I = Ok 1%Z)
    by (vm_compute; reflexivity).
  split; [exact E|exact (get_phase_id_cell_points_at_last_phase _ _ _ E)].
Defined.

Lemma mapM_py_iter_type_error : forall entries x,
  mapM py_iter entries = Exc x -> x = TypeError.
Proof.
  induction entries as [|a l IHl]; intros x Ec; simpl in Ec; [discriminate|].
  destruct (py_iter a) as [xs|z] eqn:Ea; simpl in Ec.
  - destruct (mapM py_iter l) as [ys|y] eqn:El; simpl in Ec; [discriminate|].
    injection Ec as <-. exact (IHl y eq_refl).
  - injection Ec as <-. destruct a; simpl in Ea; congruence.
Qed.

Lemma zip_first_errors : forall v x,
  zip_first v = Exc x -> x = IndexError \/ x = TypeError.
Proof.
  intros v x Ez. unfold zip_first in Ez.
  destruct (py_iter v) as [entries|y] eqn:Ev; simpl in Ez.
  - destruct (mapM py_iter entries) as [cols|y] eqn:Ec; simpl in Ez.
    + left. destruct entries; [|destruct (existsb _ cols)]; congruence.
    + right. injection Ez as <-. exact (mapM_py_iter_type_error _ _ Ec).
  - right. injection Ez as <-. destruct v; simpl in Ev; congruence.
Qed.

Lemma get_phase_id_cell_only_index_error : forall phases v e,
  get_phase_id_cell phases v = Exc e -> e = IndexError.
Proof.
  intros phases v e H. unfold get_phase_id_cell, catch_type_error in H.
  destruct (zip_first v) as [f|x] eqn:Ez; simpl in H; [discriminate|].
  destruct (zip_first_errors v x Ez) as [->| ->]; simpl in H; congruence.
Qed.

Lemma mapM_raises_at : forall {A B} (f : A -> res B) (l : list A) x e,
  (forall y e', f y = Exc e' -> e' = e) ->
  In x l -> f x = Exc e -> mapM f l = Exc e.
Proof.
  intros A B f l x e Hf. induction l as [|y l IH]; intros Hin Hx; [destruct Hin|].
  simpl. destruct (f y) as [b|e'] eqn:Ey; simpl.
  - destruct Hin as [->|Hin]; [congruence|].
    rewrite (IH Hin Hx). reflexivity.
  - rewrite (Hf _ _ Ey). reflexivity.
Qed.

(** InitialLag on a plate holding an empty PhaseVector: once the Flat lines
    of the plate are read, [_get_phase_id] takes [tuple(zip(...))[0]] of
    that cell, and the [IndexError] it raises is not caught: the whole plate
    fails rather than that cell becoming NaN. *)
Theorem initial_lag_empty_phase_vector_raises :
  forall np_arctan2 np_pi np_log2 plate low_point low_point_when fs fi,
  In (PTuple []) plate ->
  filter_plate_custom_filter Flat LinearModelSlope non_empty (select_at 0) plate
    = Ok fs ->
  filter_plate_custom_filter Flat LinearModelIntercept non_empty (select_at 0)
    plate = Ok fi ->
  extract_phenotypes np_arctan2 np_pi np_log2 plate InitialLag low_point
    low_point_when = Exc IndexError.
Proof.
  intros a p l plate lp lpw fs fi Hin Hs Hi. simpl. unfold initial_lag.
  rewrite Hs, bind_Ok, Hi, bind_Ok. unfold get_phase_id.
  rewrite (mapM_raises_at _ _ (PTuple []) IndexError
             (get_phase_id_cell_only_index_error [Flat; Impulse]) Hin
             eq_refl).
  reflexivity.
Qed.

Lemma initial_lag_empty_phase_vector_raises_witness :
  extract_phenotypes (fun _ _ => NaN) NaN (fun _ => NaN)
    [phase_vector [(Impulse, pheno_dict [(LinearModelSlope, 1)]%Q)]; PTuple []]
    InitialLag [Fin 0; Fin 0] [Fin 0; Fin 0] = Exc IndexError.
Proof.
  exact (initial_lag_empty_phase_vector_raises (fun _ _ => NaN) NaN (fun _ => NaN)
           [phase_vector [(Impulse, pheno_dict [(LinearModelSlope, 1)]%Q)];
            PTuple []] [Fin 0; Fin 0] [Fin 0; Fin 0] _ _
           (or_intror (or_introl eq_refl))
           ltac:(vm_compute; reflexivity) ltac:(vm_compute; reflexivity)).
Defined.

Lemma phase_type_counter_phase_vector : forall p segs,
  py_phase_type_counter p (phase_vector segs)
  = Ok (Z.of_nat (length (filter (fun t => phase_eqb t p) (map fst segs)))).
Proof.
  intros p segs. unfold py_phase_type_counter, catch_type_error.
  rewrite py_iter_phase_vector, bind_Ok, mapM_first_phase_vector, bind_Ok,
    count_phase_map.
  reflexivity.
Qed.

Lemma count_plate_phase_vectors : forall p plate,
  count_plate (py_phase_type_counter p) (map phase_vector plate)
  = Ok (map (fun segs => Fin (inject_Z (Z.of_nat
          (length (filter (fun t => phase_eqb t p) (map fst segs)))))) plate).
Proof.
  intros p plate. unfold count_plate.
  assert (H : mapM (py_phase_type_counter p) (map phase_vector plate)
              = Ok (map (fun segs => Z.of_nat (length
                   (filter (fun t => phase_eqb t p) (map fst segs)))) plate)).
  { induction plate as [|segs plate IH]; [reflexivity|].
    simpl. rewrite phase_type_counter_phase_vector, bind_Ok, IH, bind_Ok.
    reflexivity. }
  rewrite H, bind_Ok, map_map. f_equal. apply map_ext. intros segs.
  unfold ma_count. replace (Z.ltb _ 0) with false by (symmetry; apply Z.ltb_ge; lia).
  reflexivity.
Qed.

(** Modalities and Collapses on a plate of well-formed PhaseVectors: each
    cell's value is the number of its segments labelled [Impulse]
    (respectively [Collapse]), never NaN, whatever the other segments. *)
Theorem modalities_collapses_count_segments :
  forall np_arctan2 np_pi np_log2 plate low_point low_point_when,
  extract_phenotypes np_arctan2 np_pi np_log2 (map phase_vector plate)
    Modalities low_point low_point_when
  = Ok (map (fun segs => Fin (inject_Z (Z.of_nat
          (length (filter (fun t => phase_eqb t Impulse) (map fst segs))))))
          plate) /\
  extract_phenotypes np_arctan2 np_pi np_log2 (map phase_vector plate)
    Collapses low_point low_point_when
  = Ok (map (fun segs => Fin (inject_Z (Z.of_nat
          (length (filter (fun t => phase_eqb t Collapse) (map fst segs))))))
          plate).
Proof.
  intros. split; apply count_plate_phase_vectors.
Qed.

Lemma select_phase_dicts_phase_vector : forall p segs,
  select_phase_dicts p (map (fun s => PTuple [PPhase (fst s); snd s]) segs)
  = Ok (map snd (filter (fun s => phase_eqb (fst s) p) segs)).
Proof.
  intros p segs. induction segs as [|[t d] segs IH]; [reflexivity|].
  simpl. rewrite IH. simpl. destruct (phase_eqb t p); reflexivity.
Qed.

Lemma find_hd_filter : forall {A} (f : A -> bool) l,
  find f l = hd_error (filter f l).
Proof.
  intros A f l. induction l as [|x l IH]; [reflexivity|].
  simpl. destruct (f x); [reflexivity|exact IH].
Qed.

Lemma filter_rev_comm : forall {A} (f : A -> bool) l,
  filter f (rev l) = rev (filter f l).
Proof.
  intros A f l. induction l as [|x l IH]; [reflexivity|].
  simpl. rewrite filter_app, IH. simpl.
  destruct (f x); simpl; [reflexivity|apply app_nil_r].
Qed.

Lemma index_list_last : forall {A} (l : list A),
  index_list l (-1) = hd_error (rev l).
Proof.
  intros A l. destruct l as [|a l']; [reflexivity|].
  destruct (exists_last (l := a :: l') ltac:(discriminate)) as (l0 & x & E).
  rewrite E, rev_app_distr. change (rev [x]) with [x]. cbn [app hd_error].
  unfold index_list. cbv zeta. rewrite length_app.
  replace (Z.ltb (-1) 0) with true by reflexivity.
  replace (-1 + Z.of_nat (length l0 + length [x]))%Z with (Z.of_nat (length l0))
    by (simpl length; lia).
  replace (Z.ltb (Z.of_nat (length l0)) 0) with false
    by (symmetry; apply Z.ltb_ge; lia).
  rewrite Nat2Z.id, nth_error_app2 by lia. rewrite Nat.sub_diag. reflexivity.
Qed.

Lemma mapM_map_ext : forall {A B C} (f : B -> res C) (g : A -> B) h l,
  (forall x, f (g x) = h x) -> mapM f (map g l) = mapM h l.
Proof.
  intros A B C f g h l H. induction l as [|x l IH]; [reflexivity|].
  simpl. rewrite H, IH. reflexivity.
Qed.

Lemma custom_filter_cell_first : forall p m segs,
  custom_filter_cell p m non_empty (select_at 0) (phase_vector segs)
  = match find (fun s => phase_eqb (fst s) p) segs with
    | None => Ok (PFloat NaN)
    | Some s => catch_type_error (getitem (snd s) (PKey m)) (PFloat NaN)
    end.
Proof.
  intros p m segs. unfold custom_filter_cell.
  rewrite py_iter_phase_vector, bind_Ok, select_phase_dicts_phase_vector,
    bind_Ok, find_hd_filter.
  destruct (filter (fun s => phase_eqb (fst s) p) segs) as [|[t d] rest];
    reflexivity.
Qed.

Lemma custom_filter_cell_last : forall p m segs,
  custom_filter_cell p m non_empty (select_at (-1)) (phase_vector segs)
  = match find (fun s => phase_eqb (fst s) p) (rev segs) with
    | None => Ok (PFloat NaN)
    | Some s => catch_type_error (getitem (snd s) (PKey m)) (PFloat NaN)
    end.
Proof.
  intros p m segs. unfold custom_filter_cell.
  rewrite py_iter_phase_vector, bind_Ok, select_phase_dicts_phase_vector,
    bind_Ok, find_hd_filter, filter_rev_comm.
  destruct (filter (fun s => phase_eqb (fst s) p) segs) as [|s0 rest] eqn:F;
    [reflexivity|].
  unfold non_empty, at_least. simpl length. cbn [Nat.leb].
  unfold select_at. rewrite index_list_last, <- map_rev.
  destruct (rev (s0 :: rest)) as [|[t d] r] eqn:R.
  - exfalso. apply (f_equal (@length _)) in R. rewrite length_rev in R.
    discriminate R.
  - reflexivity.
Qed.

(** The four asymptote meta-phenotypes on a plate of well-formed
    PhaseVectors: InitialAcceleration* reads the measure of the cell's first
    [GrowthAcceleration] segment, FinalRetardation* that of its last
    [GrowthRetardation] segment; a cell without such a segment, or whose
    segment data cannot be indexed ([TypeError]), gives NaN, while a
    segment dict lacking the measure raises [KeyError] for the plate. *)
Theorem asymptote_phenotypes_first_acceleration_last_retardation :
  forall np_arctan2 np_pi np_log2 plate low_point low_point_when,
  let pick m (o : option (CurvePhases * pyobj)) :=
    match o with
    | None => Ok (PFloat NaN)
    | Some s => catch_type_error (getitem (snd s) (PKey m)) (PFloat NaN)
    end in
  let acc segs := find (fun s => phase_eqb (fst s) GrowthAcceleration) segs in
  let ret segs :=
    find (fun s => phase_eqb (fst s) GrowthRetardation) (rev segs) in
  let cells := map phase_vector plate in
  extract_phenotypes np_arctan2 np_pi np_log2 cells
    InitialAccelerationAsymptoteAngle low_point low_point_when
  = (let* objs := mapM (fun segs => pick AsymptoteAngle (acc segs)) plate in
     mapM as_float objs) /\
  extract_phenotypes np_arctan2 np_pi np_log2 cells
    InitialAccelerationAsymptoteIntersect low_point low_point_when
  = (let* objs := mapM (fun segs => pick AsymptoteIntersection (acc segs))
                    plate in
     mapM as_float objs) /\
  extract_phenotypes np_arctan2 np_pi np_log2 cells
    FinalRetardationAsymptoteAngle low_point low_point_when
  = (let* objs := mapM (fun segs => pick AsymptoteAngle (ret segs)) plate in
     mapM as_float objs) /\
  extract_phenotypes np_arctan2 np_pi np_log2 cells
    FinalRetardationAsymptoteIntersect low_point low_point_when
  = (let* objs := mapM (fun segs => pick AsymptoteIntersection (ret segs))
                    plate in
     mapM as_float objs).
Proof.
  intros. simpl. unfold filter_plate_custom_filter, cells.
  repeat split; f_equal; apply mapM_map_ext; intros segs;
    first [apply custom_filter_cell_first | apply custom_filter_cell_last].
Qed.

Lemma zip_with_lengths : forall {A B C} (f : A -> B -> C) xs ys zs,
  zip_with f xs ys = Ok zs -> length xs = length ys /\ length zs = length xs.
Proof.
  intros A B C f xs. induction xs as [|x xs IH]; intros [|y ys] zs H;
    simpl in H; try discriminate.
  - injection H as <-. split; reflexivity.
  - destruct (zip_with f xs ys) as [tl|e] eqn:E; simpl in H; [|discriminate].
    injection H as <-. destruct (IH _ _ E) as [H1 H2]. simpl. lia.
Qed.

Lemma zip_with_nth : forall {A B C} (f : A -> B -> C) xs ys zs i x y,
  zip_with f xs ys = Ok zs -> nth_error xs i = Some x -> nth_error ys i = Some y ->
  nth_error zs i = Some (f x y).
Proof.
  intros A B C f xs. induction xs as [|x0 xs IH]; intros [|y0 ys] zs i x y H Hx Hy;
    simpl in H; try discriminate.
  - destruct i; discriminate.
  - destruct (zip_with f xs ys) as [tl|e] eqn:E; simpl in H; [|discriminate].
    injection H as <-. destruct i as [|i]; simpl in *.
    + congruence.
    + exact (IH _ _ _ _ _ E Hx Hy).
Qed.

Lemma zip_with_nth_inv : forall {A B C} (f : A -> B -> C) xs ys zs i z,
  zip_with f xs ys = Ok zs -> nth_error zs i = Some z ->
  exists x y, nth_error xs i = Some x /\ nth_error ys i = Some y /\ z = f x y.
Proof.
  intros A B C f xs. induction xs as [|x0 xs IH]; intros [|y0 ys] zs i z H Hz;
    simpl in H; try discriminate.
  - injection H as <-. destruct i; discriminate.
  - destruct (zip_with f xs ys) as [tl|e] eqn:E; simpl in H; [|discriminate].
    injection H as <-. destruct i as [|i]; simpl in *.
    + injection Hz as <-. exists x0, y0. auto.
    + exact (IH _ _ _ _ E Hz).
Qed.

Lemma nth_error_some_of_length : forall {A B} (l : list A) (l' : list B) i x,
  length l = length l' -> nth_error l' i = Some x -> exists y, nth_error l i = Some y.
Proof.
  intros A B l l' i x Hl Hx.
  assert (Hi : (i < length l)%nat) by (rewrite Hl; apply nth_error_Some; congruence).
  destruct (nth_error l i) eqn:E; [eauto|]. apply nth_error_None in E. lia.
Qed.

Lemma not_below_zero_nan_or_nonneg : forall x,
  fl_lt x (Fin 0) = false -> nan_or_nonneg x.
Proof.
  intros [| | |q] H; simpl in H; try discriminate.
  - left; reflexivity.
  - right; left; reflexivity.
  - right; right. exists q. split; [reflexivity|].
    apply negb_false_iff in H. apply Qle_bool_iff. exact H.
Qed.

(** InitialLagAlternativeModel: every value is NaN or non-negative, one per
    cell of [low_point_when]; a cell whose [ExperimentLowPointWhen] is not
    finite, or whose selected impulse starts before it, is NaN. *)
Theorem initial_lag_alternative_model_masked :
  forall np_arctan2 np_pi np_log2 plate low_point low_point_when vs,
  extract_phenotypes np_arctan2 np_pi np_log2 plate InitialLagAlternativeModel
    low_point low_point_when = Ok vs ->
  length vs = length low_point_when /\
  Forall nan_or_nonneg vs /\
  (forall i t, nth_error low_point_when i = Some t -> fl_isfinite t = false ->
     nth_error vs i = Some NaN) /\
  exists starts,
    filter_plate_custom_filter Impulse Start non_empty (select_ranked (-1)) plate
      = Ok starts /\
    (forall i s t, nth_error starts i = Some s ->
       nth_error low_point_when i = Some t -> fl_lt s t = true ->
       nth_error vs i = Some NaN).
Proof.
  intros a p lg plate lp lpw vs H. simpl in H.
  destruct (filter_plate_custom_filter Impulse LinearModelSlope _ _ plate)
    as [sl|e]; simpl in H; [|discriminate].
  destruct (filter_plate_custom_filter Impulse LinearModelIntercept _ _ plate)
    as [ic|e]; simpl in H; [|discriminate].
  destruct (filter_plate_custom_filter Impulse Start _ _ plate)
    as [st|e] eqn:Est; simpl in H; [|discriminate].
  destruct (zip_with fl_sub ic (map lg lp)) as [num|e]; simpl in H;
    [|discriminate].
  destruct (zip_with fl_div num (map (fl_sub (Fin 0)) sl)) as [lag|e] eqn:Elag;
    simpl in H; [|discriminate].
  destruct (zip_with fl_lt st lpw) as [late|e] eqn:Elate; simpl in H;
    [|discriminate].
  destruct (zip_with pair lag late) as [ll|e] eqn:Ell; simpl in H;
    [|discriminate].
  destruct (zip_with _ ll lpw) as [masked|e] eqn:Em; simpl in H;
    [|discriminate].
  injection H as <-.
  destruct (zip_with_lengths _ _ _ _ Em) as [Hl1 Hl2].
  destruct (zip_with_lengths _ _ _ _ Ell) as [Hl3 Hl4].
  destruct (zip_with_lengths _ _ _ _ Elate) as [Hl5 Hl6].
  split; [lia|]. split; [|split].
  - apply Forall_forall. intros z Hz.
    destruct (In_nth_error _ _ Hz) as [i Hi].
    destruct (zip_with_nth_inv _ _ _ _ _ _ Em Hi) as (x & t & _ & _ & ->).
    destruct (fl_lt (fst x) (Fin 0)) eqn:E1; [left; reflexivity|].
    destruct (snd x); [left; reflexivity|].
    destruct (fl_isfinite t); [|left; reflexivity].
    simpl. apply not_below_zero_nan_or_nonneg. exact E1.
  - intros i t Ht Hf.
    destruct (nth_error_some_of_length ll lpw i t Hl1 Ht) as [x Hx].
    rewrite (zip_with_nth _ _ _ _ _ _ _ Em Hx Ht), Hf, !orb_true_r.
    reflexivity.
  - exists st. split; [reflexivity|]. intros i s t Hs Ht Hlt.
    pose proof (zip_with_nth _ _ _ _ _ _ _ Elate Hs Ht) as Hlate.
    rewrite Hlt in Hlate.
    destruct (nth_error_some_of_length lag late i true ltac:(lia) Hlate)
      as [g Hg].
    pose proof (zip_with_nth _ _ _ _ _ _ _ Ell Hg Hlate) as Hll.
    rewrite (zip_with_nth _ _ _ _ _ _ _ Em Hll Ht). simpl.
    rewrite orb_true_r. reflexivity.
Qed.

Lemma initial_lag_alternative_model_masked_witness :
  exists vs,
    extract_phenotypes (fun _ _ => NaN) NaN (fun _ => Fin 0)
      [phase_vector [(Impulse, pheno_dict [(LinearModelSlope, 1);
                       (LinearModelIntercept, -2); (Start, 3);
                       (PopulationDoublings, 2)]%Q)]]
      InitialLagAlternativeModel [Fin 1] [Fin 1] = Ok vs /\
    length vs = length [Fin 1] /\ Forall nan_or_nonneg vs.
Proof.
  destruct (extract_phenotypes (fun _ _ => NaN) NaN (fun _ => Fin 0)
      [phase_vector [(Impulse, pheno_dict [(LinearModelSlope, 1);
                       (LinearModelIntercept, -2); (Start, 3);
                       (PopulationDoublings, 2)]%Q)]]
      InitialLagAlternativeModel [Fin 1] [Fin 1]) as [vs|e] eqn:E.
  - exists vs. split; [reflexivity|].
    destruct (initial_lag_alternative_model_masked _ _ _ _ _ _ _ E)
      as (H1 & H2 & _). split; assumption.
  - vm_compute in E. discriminate E.
Defined.

(** [PhenotyperState.__post_init__]: afterwards there are as many reference
    surface positions as plates of raw growth data, the other fields being
    unchanged; so [has_reference_surface_positions()] holds exactly when
    [phenotypes] is set and has as many plates as [raw_growth_data]. *)
Theorem post_init_sizes_reference_positions : forall lower_right self self',
  State.post_init lower_right self = Ok self' ->
  (exists rsp',
     self' = State.mk_state (State.phenotypes self) (State.raw_growth_data self)
               (State.normalized_phenotypes self) (State.meta_data self)
               (State.phenotype_filter self) (State.phenotype_filter_undo self)
               rsp' (State.smooth_growth_data self) (State.times_data self)
               (State.vector_meta_phenotypes self) (State.vector_phenotypes self)
               (State.extra_attrs self) /\
     py_len rsp' = py_len (State.raw_growth_data self)) /\
  State.has_reference_surface_positions self'
  = if is_none (State.phenotypes self) then Ok false
    else let* a := py_len (State.raw_growth_data self) in
         let* b := py_len (State.phenotypes self) in
         Ok (Nat.eqb a b).
Proof.
  intros lr [p r np md pf pfu rsp sg td vmp vp ex] self' H.
  unfold State.post_init in H. simpl in H.
  destruct (py_len rsp) as [a|e] eqn:Ea; simpl in H; [|discriminate].
  destruct (py_len r) as [n|e] eqn:En; simpl in H; [|discriminate].
  destruct (Nat.eqb a n) eqn:Eq; injection H as <-.
  - apply Nat.eqb_eq in Eq. subst a. simpl. split.
    + exists rsp. split; [reflexivity|]. congruence.
    + unfold State.has_reference_surface_positions. simpl.
      destruct (is_none p); [reflexivity|].
      rewrite Ea, En. reflexivity.
  - simpl. split.
    + eexists. split; [reflexivity|]. simpl. rewrite repeat_length, En. reflexivity.
    + unfold State.has_reference_surface_positions. simpl.
      destruct (is_none p); [reflexivity|].
      rewrite repeat_length, En. reflexivity.
Qed.

Lemma post_init_sizes_reference_positions_witness :
  exists self',
    State.post_init PNone
      (State.mk_state (PTuple [PNone; PNone]) (PTuple [PNone; PNone]) PNone PNone
         PNone PNone (PTuple []) PNone PNone PNone PNone [])
    = Ok self' /\
    State.has_reference_surface_positions self' = Ok true.
Proof.
  destruct (State.post_init PNone
      (State.mk_state (PTuple [PNone; PNone]) (PTuple [PNone; PNone]) PNone PNone
         PNone PNone (PTuple []) PNone PNone PNone PNone [])) as [s'|e] eqn:E.
  - exists s'. split; [reflexivity|].
    rewrite (proj2 (post_init_sizes_reference_positions _ _ _ E)).
    reflexivity.
  - vm_compute in E. discriminate E.
Defined.

Lemma combine_repeat_l : forall {A B} (a : A) (l : list B),
  combine (repeat a (length l)) l = map (pair a) l.
Proof.
  intros A B a l. induction l as [|b l IH]; [reflexivity|].
  simpl. rewrite IH. reflexivity.
Qed.

Lemma combine_app_same_length : forall {A B} (l1 l2 : list A) (m1 m2 : list B),
  length l1 = length m1 -> combine (l1 ++ l2) (m1 ++ m2) = combine l1 m1 ++ combine l2 m2.
Proof.
  intros A B l1. induction l1 as [|a l1 IH]; intros l2 [|b m1] m2 H;
    simpl in H; try discriminate; [reflexivity|].
  simpl. rewrite IH by lia. reflexivity.
Qed.

Lemma mgrid_pairs : forall r c,
  combine (mgrid_rows r c) (mgrid_cols r c)
  = flat_map (fun i => map (pair i) (seq 0 c)) (seq 0 r).
Proof.
  intros r c. unfold mgrid_rows, mgrid_cols.
  assert (G : forall s, combine (flat_map (fun i => repeat i c) (seq s r))
                          (flat_map (fun _ => seq 0 c) (seq s r))
              = flat_map (fun i => map (pair i) (seq 0 c)) (seq s r)).
  { induction r as [|r IH]; intros s; [reflexivity|].
    simpl. rewrite combine_app_same_length
      by (rewrite repeat_length, length_seq; reflexivity).
    replace (repeat s c) with (repeat s (length (seq 0 c)))
      by (rewrite length_seq; reflexivity).
    rewrite combine_repeat_l, IH. reflexivity. }
  apply G.
Qed.

Lemma firstn_skipn_blocks : forall {A} (row : nat -> list A) c r s k,
  (forall i, length (row i) = c) -> (k < r)%nat ->
  firstn c (skipn (k * c) (flat_map row (seq s r))) = row (s + k)%nat.
Proof.
  intros A row c r. induction r as [|r IH]; intros s k Hl Hk; [lia|].
  simpl. destruct k as [|k].
  - simpl. rewrite Nat.add_0_r, firstn_app, <- (Hl s), Nat.sub_diag,
      firstn_all. simpl. apply app_nil_r.
  - simpl. rewrite skipn_app, (Hl s),
      (skipn_all2 (row s)) by (rewrite Hl; lia).
    replace (c + k * c - c)%nat with (k * c)%nat by lia. simpl.
    rewrite IH by (auto; lia). f_equal. lia.
Qed.

(** [_get_index_array(shape)]: an [r] by [c] array whose entry at row [i],
    column [j] is the tuple [(i, j)]. *)
Theorem get_index_array_entries : forall r c,
  get_index_array (r, c) = map (fun i => map (pair i) (seq 0 c)) (seq 0 r).
Proof.
  intros r c. unfold get_index_array. rewrite mgrid_pairs.
  apply map_ext_in. intros i Hi. apply in_seq in Hi.
  rewrite (firstn_skipn_blocks (fun i => map (pair i) (seq 0 c)) c r 0 i)
    by first [lia | intros j; cbv beta; rewrite length_map, length_seq;
               reflexivity].
  reflexivity.
Qed.

Lemma assignment_rows_fixed_shape : forall vs sh0,
  length sh0 = 1%nat -> hd 0%nat sh0 <> 0%nat ->
  assignment_rows vs (Some sh0)
  = flat_map (fun v => match v with
                       | CPArray sh d =>
                           if list_eq_dec Nat.eq_dec sh sh0 then [d] else []
                       | CPNone => []
                       end) vs.
Proof.
  intros vs sh0 Hl Hh. induction vs as [|[|sh d] vs IH]; [reflexivity|exact IH|].
  simpl. destruct (list_eq_dec Nat.eq_dec sh sh0) as [->|Hne].
  - rewrite Hl, (proj2 (Nat.eqb_neq _ _) Hh). simpl. rewrite IH. reflexivity.
  - rewrite andb_false_r. exact IH.
Qed.

(** [get_phase_assignment_data]: the rows are the phase arrays, in curve
    order, of exactly the shape of the first one-dimensional non-empty
    array met; every other array (another shape, or one met before it that
    is not one-dimensional or empty) and every [None] is left out. *)
Theorem get_phase_assignment_data_rows : forall vs,
  get_phase_assignment_data vs
  = match find (fun v => match v with
                         | CPArray sh _ =>
                             Nat.eqb (length sh) 1 && negb (Nat.eqb (hd 0%nat sh) 0)
                         | CPNone => false
                         end) vs with
    | Some (CPArray sh0 _) =>
        flat_map (fun v => match v with
                           | CPArray sh d =>
                               if list_eq_dec Nat.eq_dec sh sh0 then [d] else []
                           | CPNone => []
                           end) vs
    | _ => []
    end.
Proof.
  intros vs. unfold get_phase_assignment_data.
  induction vs as [|[|sh d] vs IH]; [reflexivity|exact IH|].
  simpl. rewrite andb_true_r.
  destruct (Nat.eqb (length sh) 1 && negb (Nat.eqb (hd 0%nat sh) 0)) eqn:E.
  - apply andb_true_iff in E. destruct E as [E1 E2].
    apply Nat.eqb_eq in E1. apply negb_true_iff, Nat.eqb_neq in E2.
    destruct (list_eq_dec Nat.eq_dec sh sh) as [_|Hne]; [|congruence].
    simpl. rewrite assignment_rows_fixed_shape by assumption. reflexivity.
  - rewrite IH. destruct (find _ vs) as [[|sh0 d0]|] eqn:F; try reflexivity.
    assert (Hsh0 : Nat.eqb (length sh0) 1 && negb (Nat.eqb (hd 0%nat sh0) 0) = true)
      by (apply find_some in F; exact (proj2 F)).
    destruct (list_eq_dec Nat.eq_dec sh sh0) as [->|]; [congruence|reflexivity].
Qed.

Lemma lookup_set_extra : forall q m v l,
  State.lookup_extra q (State.set_extra m v l)
  = if String.eqb m q then Some v else State.lookup_extra q l.
Proof.
  intros q m v l. induction l as [|[n w] l IH]; simpl; [reflexivity|].
  destruct (String.eqb n m) eqn:Enm; simpl.
  - apply String.eqb_eq in Enm. subst n. destruct (String.eqb m q); reflexivity.
  - rewrite IH. destruct (String.eqb m q) eqn:Emq; [|reflexivity].
    apply String.eqb_eq in Emq. subst q. rewrite Enm. reflexivity.
Qed.

Lemma wipe_instance_attr : forall self keep q,
  String.eqb "_vector_phenotypes" q = false ->
  State.instance_attr (State.wipe_extracted_phenotypes self keep) q
  = State.instance_attr self q.
Proof.
  intros [p r np md pf pfu rsp sg td vmp vp ex] keep q Hq.
  unfold State.instance_attr. destruct keep; simpl; rewrite lookup_set_extra, Hq;
    reflexivity.
Qed.

(** [has_phenotype_on_any_plate] reads [self._phenotypes] and
    [has_normalized_data] reads [self.normalizable_phenotypes], neither of
    which the dataclass declares: unless such an attribute was set on the
    instance they raise [AttributeError], before and after
    [wipe_extracted_phenotypes] (which sets [_vector_phenotypes] only). *)
Theorem state_queries_read_undeclared_attributes :
  forall plate_has is_ndarray np_size self keep,
  State.instance_attr self "_phenotypes" = None ->
  State.instance_attr self "normalizable_phenotypes" = None ->
  State.has_phenotype_on_any_plate plate_has self
    = State.AttributeError "_phenotypes" /\
  State.has_phenotype_on_any_plate plate_has
    (State.wipe_extracted_phenotypes self keep)
    = State.AttributeError "_phenotypes" /\
  State.has_normalized_data is_ndarray np_size self
    = State.AttributeError "normalizable_phenotypes" /\
  State.has_normalized_data is_ndarray np_size
    (State.wipe_extracted_phenotypes self keep)
    = State.AttributeError "normalizable_phenotypes".
Proof.
  intros ph isa sz self keep H1 H2.
  unfold State.has_phenotype_on_any_plate, State.has_normalized_data.
  rewrite !wipe_instance_attr by reflexivity. rewrite H1, H2.
  repeat split.
Qed.

Lemma state_queries_read_undeclared_attributes_witness :
  let self := State.mk_state (PTuple [PNone]) (PTuple [PNone]) PNone PNone
                PNone PNone (PTuple [PNone]) PNone PNone PNone PNone [] in
  State.has_phenotype_on_any_plate (fun _ => true)
    (State.wipe_extracted_phenotypes self false)
  = State.AttributeError "_phenotypes".
Proof.
  intros self.
  exact (proj1 (proj2 (state_queries_read_undeclared_attributes
           (fun _ => true) (fun _ => true) (fun _ => 0%nat) self false
           eq_refl eq_refl))).
Defined.

(** [has_smooth_growth_data]: [False] when [smooth_growth_data] is [None];
    when it is set and sized, reading [self.state] raises [AttributeError]
    (the dataclass has no [state] field), so the method never returns
    [True]. *)
Theorem has_smooth_growth_data_never_true : forall self,
  (is_none (State.smooth_growth_data self) = true ->
   State.has_smooth_growth_data self = State.Returns false) /\
  (forall n, py_len (State.smooth_growth_data self) = Ok n ->
   State.instance_attr self "state" = None ->
   State.has_smooth_growth_data self = State.AttributeError "state") /\
  State.has_smooth_growth_data self <> State.Returns true.
Proof.
  intros self. unfold State.has_smooth_growth_data.
  destruct (is_none (State.smooth_growth_data self)) eqn:En.
  - split; [reflexivity|]. split; [|discriminate].
    intros n Hn. destruct (State.smooth_growth_data self); simpl in *; congruence.
  - split; [discriminate|]. split.
    + intros n Hn Hs. rewrite Hn, Hs. reflexivity.
    + destruct (py_len _); [destruct (State.instance_attr self "state")|];
        discriminate.
Qed.

Lemma has_smooth_growth_data_never_true_witness :
  State.has_smooth_growth_data
    (State.mk_state (PTuple [PNone]) (PTuple [PNone]) PNone PNone PNone PNone
       (PTuple [PNone]) (PTuple [PNone]) PNone PNone PNone [])
  = State.AttributeError "state".
Proof.
  exact (proj1 (proj2 (has_smooth_growth_data_never_true
           (State.mk_state (PTuple [PNone]) (PTuple [PNone]) PNone PNone PNone
              PNone (PTuple [PNone]) (PTuple [PNone]) PNone PNone PNone [])))
           1%nat eq_refl eq_refl).
Defined.

Lemma current_phase_from_none_all : forall l i r,
  current_phase_from i l r = PNone ->
  forall s, In s l -> existsb (ref_eqb r) (slot_members s) = false.
Proof.
  induction l as [|s0 l IH]; intros i r H s Hs; [destruct Hs|].
  simpl in H. destruct (existsb (ref_eqb r) (slot_members s0)) eqn:E;
    [discriminate|].
  destruct Hs as [<-|Hs]; [exact E|exact (IH _ _ H s Hs)].
Qed.

Lemma current_phase_from_skip : forall l1 l2 i r,
  (forall s, In s l1 -> existsb (ref_eqb r) (slot_members s) = false) ->
  current_phase_from i (l1 ++ l2) r = current_phase_from (i + length l1) l2 r.
Proof.
  induction l1 as [|s l1 IH]; intros l2 i r H; simpl.
  - rewrite Nat.add_0_r. reflexivity.
  - rewrite (H s (or_introl eq_refl)), IH by (intros; apply H; right; assumption).
    f_equal. lia.
Qed.

(** [insert_phase] for a segment no slot holds yet ([current_phase] gives
    [None]), a candidate slot being found at index [k]: afterwards slot [k]
    is the slot just inserted (the segment's type, holding only [id_tup],
    anchored at the segment's anchor), and [current_phase] finds the segment
    at index [k]. *)
Theorem insert_phase_then_current_phase :
  forall phases m pp id prev side et mpt possible st a ty k,
  current_phase phases id = PNone ->
  get_possible phases m prev side = Ok possible ->
  relative_start pp et mpt = Ok st ->
  relative_offset (Some (1 # 2)) pp et mpt st = Ok a ->
  getitem pp (PInt 0) = Ok (PPhase ty) ->
  insert_position phases a possible None = Ok (Some k) ->
  (0 <= k)%Z ->
  exists r, insert_phase phases m pp id prev side et mpt = Ok r /\
    slot_at r k = Ok (mk_slot ty [id] (Some a)) /\
    current_phase r id = PInt k.
Proof.
  intros phases m pp id prev side et mpt possible st a ty k
    Hc Hp Hs Ha Ht Hi Hk.
  eexists. split; [exact (insert_phase_found_eq _ _ _ _ _ _ _ _ _ _ _ _ _
                            Hp Hs Ha Ht Hi Hk)|].
  destruct (insert_position_found _ _ _ _ _ Hi)
    as [[_ Hn]|(pre & post & s & b & Epos & Hpre & Hsk & Hb & Hpost)];
    [discriminate|].
  pose proof (slot_at_nonneg_lt _ _ _ Hk Hsk) as Hlt.
  split.
  { unfold slot_at, index_list.
    replace (Z.ltb k 0) with false by (symmetry; apply Z.ltb_ge; lia).
    replace (Z.ltb k 0) with false by (symmetry; apply Z.ltb_ge; lia).
    rewrite nth_error_app2 by (rewrite firstn_length_le; lia).
    rewrite firstn_length_le, Nat.sub_diag by lia. reflexivity. }
  unfold current_phase. rewrite current_phase_from_skip.
  - rewrite firstn_length_le by lia. simpl. rewrite ref_eqb_refl. simpl.
    f_equal. lia.
  - intros s' Hs'. apply (current_phase_from_none_all phases 0 id Hc).
    rewrite <- (firstn_skipn (Z.to_nat k) phases). apply in_or_app. left. exact Hs'.
Qed.

Lemma insert_phase_then_current_phase_witness :
  exists r,
    insert_phase [mk_slot Flat [(0, 0)] (Some (Fin 0));
                  mk_slot Flat [(1, 0)] (Some (Fin 5))] 0
      (PTuple [PPhase Flat; pheno_dict [(Start, 1); (Duration, 2)]%Q]) (2, 0)
      PNone Both (Fin 10) (PFloat (Fin 4)) = Ok r /\
    current_phase r (2, 0) = PInt 0.
Proof.
  destruct (relative_start
      (PTuple [PPhase Flat; pheno_dict [(Start, 1); (Duration, 2)]%Q])
      (Fin 10) (PFloat (Fin 4))) as [st|e] eqn:Es;
    [|vm_compute in Es; discriminate Es].
  pose proof Es as Es'. vm_compute in Es'. injection Es' as Est. subst st.
  destruct (relative_offset (Some (1 # 2))
      (PTuple [PPhase Flat; pheno_dict [(Start, 1); (Duration, 2)]%Q])
      (Fin 10) (PFloat (Fin 4)) (Fin ((1 # 4) - 1))) as [a|e] eqn:Ea;
    [|vm_compute in Ea; discriminate Ea].
  pose proof Ea as Ea'. vm_compute in Ea'. injection Ea' as Eat. subst a.
  destruct (insert_phase_then_current_phase
      [mk_slot Flat [(0, 0)] (Some (Fin 0)); mk_slot Flat [(1, 0)] (Some (Fin 5))]
      0 (PTuple [PPhase Flat; pheno_dict [(Start, 1); (Duration, 2)]%Q]) (2, 0)
      PNone Both (Fin 10) (PFloat (Fin 4)) [0; 1]%Z _ _ Flat 0%Z
      eq_refl eq_refl Es Ea eq_refl ltac:(vm_compute; reflexivity) ltac:(lia))
    as (r & H1 & _ & H3).
  exists r. split; [exact H1 | exact H3].
Defined.

Lemma add_to_phase_fresh : forall data ref p et mpt st a,
  relative_start data et mpt = Ok st ->
  relative_offset (Some (1 # 2)) data et mpt st = Ok a ->
  add_to_phase data ref (mk_slot p [] None) et mpt = Ok (mk_slot p [ref] (Some a)).
Proof.
  intros data ref p et mpt st a Hs Ha. unfold add_to_phase.
  rewrite Hs, bind_Ok, Ha, bind_Ok. reflexivity.
Qed.

Lemma phase_eqb_true_eq : forall p q, phase_eqb p q = true -> p = q.
Proof. intros [] [] H; try reflexivity; discriminate H. Qed.

Lemma append_loop_labelled : forall members phases data ref et mpt p sl,
  getitem data (PInt 0) = Ok (PPhase p) ->
  add_to_phase data ref (mk_slot p [] None) et mpt = Ok sl ->
  append_loop members phases data ref et mpt
  = Ok (phases ++ flat_map (fun q => if phase_eqb q Undetermined then []
                                     else if phase_eqb p q then [sl] else [])
                           members).
Proof.
  induction members as [|q members IH]; intros phases data ref et mpt p sl Ht Ha.
  - simpl. rewrite app_nil_r. reflexivity.
  - cbn [append_loop flat_map].
    destruct (phase_eqb q Undetermined) eqn:Eu; [exact (IH _ _ _ _ _ _ _ Ht Ha)|].
    rewrite Ht, bind_Ok. cbn [is_phase].
    destruct (phase_eqb p q) eqn:Epq; cbn [negb].
    + rewrite bind_Ok. cbn [is_phase]. rewrite Epq.
      apply phase_eqb_true_eq in Epq. subst q.
      rewrite Ha, bind_Ok, (IH _ _ _ _ _ _ _ Ht Ha), <- app_assoc. reflexivity.
    + exact (IH _ _ _ _ _ _ _ Ht Ha).
Qed.

(** [append_phases(data, phase_ref, ...)] for a segment labelled with a
    [CurvePhases] member [p]: one new slot of type [p], holding only
    [phase_ref] and anchored at the segment's anchor, is appended after the
    existing slots, which are kept; a segment labelled [Undetermined] leaves
    the slots as they are. *)
Theorem append_phases_appends_one_slot : forall phases data ref et mpt p st a,
  getitem data (PInt 0) = Ok (PPhase p) ->
  relative_start data et mpt = Ok st ->
  relative_offset (Some (1 # 2)) data et mpt st = Ok a ->
  append_phases phases data ref et mpt
  = Ok (if phase_eqb p Undetermined then phases
        else phases ++ [mk_slot p [ref] (Some a)]).
Proof.
  intros phases data ref et mpt p st a Ht Hs Ha.
  unfold append_phases.
  rewrite (append_loop_labelled all_phases phases data ref et mpt p _ Ht
             (add_to_phase_fresh data ref p et mpt st a Hs Ha)).
  destruct p; simpl; rewrite ?app_nil_r; reflexivity.
Qed.

Lemma append_phases_appends_one_slot_witness :
  exists r,
    append_phases [mk_slot Impulse [(0, 0)] (Some (Fin 0))]
      (PTuple [PPhase Flat; pheno_dict [(Start, 1); (Duration, 2)]%Q]) (1, 0)
      (Fin 10) (PFloat (Fin 4)) = Ok r /\ length r = 2%nat.
Proof.
  destruct (relative_start
      (PTuple [PPhase Flat; pheno_dict [(Start, 1); (Duration, 2)]%Q])
      (Fin 10) (PFloat (Fin 4))) as [st|e] eqn:Es;
    [|vm_compute in Es; discriminate Es].
  destruct (relative_offset (Some (1 # 2))
      (PTuple [PPhase Flat; pheno_dict [(Start, 1); (Duration, 2)]%Q])
      (Fin 10) (PFloat (Fin 4)) st) as [a|e] eqn:Ea.
  - eexists. split.
    + exact (append_phases_appends_one_slot [mk_slot Impulse [(0, 0)] (Some (Fin 0))]
               (PTuple [PPhase Flat; pheno_dict [(Start, 1); (Duration, 2)]%Q])
               (1, 0) (Fin 10) (PFloat (Fin 4)) Flat st a eq_refl Es Ea).
    + reflexivity.
  - pose proof Es as Es'. vm_compute in Es'. injection Es' as <-.
    vm_compute in Ea. discriminate Ea.
Defined.

(** [filter_plate_on_phase_id] on one PhaseVector cell: a negative or NaN
    phase id gives NaN, as does a segment whose dict lacks the measure; an
    id past the last segment raises [IndexError], which is not caught. *)
Theorem on_phase_id_cell_index_cases : forall measure segs,
  (forall z, (z < 0)%Z ->
     on_phase_id_cell measure (phase_vector segs) (PInt z) = Ok (PFloat NaN)) /\
  on_phase_id_cell measure (phase_vector segs) (PFloat NaN) = Ok (PFloat NaN) /\
  (forall z, (Z.of_nat (length segs) <= z)%Z ->
     on_phase_id_cell measure (phase_vector segs) (PInt z) = Exc IndexError) /\
  (forall z t d, nth_error segs (Z.to_nat z) = Some (t, PDict d) -> (0 <= z)%Z ->
     dict_lookup d measure = None ->
     on_phase_id_cell measure (phase_vector segs) (PInt z) = Ok (PFloat NaN)).
Proof.
  intros measure segs. unfold on_phase_id_cell. cbn [py_lt].
  split; [|split; [reflexivity|split]].
  - intros z Hz. rewrite (proj2 (Z.ltb_lt z 0) Hz). reflexivity.
  - intros z Hz. replace (Z.ltb z 0) with false by (symmetry; apply Z.ltb_ge; lia).
    unfold phase_vector, getitem, index_list.
    replace (Z.ltb z 0) with false by (symmetry; apply Z.ltb_ge; lia).
    replace (Z.ltb z 0) with false by (symmetry; apply Z.ltb_ge; lia).
    rewrite (proj2 (nth_error_None _ _)) by (rewrite length_map; lia).
    reflexivity.
  - intros z t d Hn Hz Hd.
    replace (Z.ltb z 0) with false by (symmetry; apply Z.ltb_ge; lia).
    unfold phase_vector, getitem at 1, index_list.
    replace (Z.ltb z 0) with false by (symmetry; apply Z.ltb_ge; lia).
    replace (Z.ltb z 0) with false by (symmetry; apply Z.ltb_ge; lia).
    rewrite nth_error_map, Hn. simpl. rewrite Hd. reflexivity.
Qed.
